(** * raspi-monitor: the heartbeat reporter and the heartbeat-log trimmer

    A shallow embedding of [trim_heartbeat_log.js] (the log retention
    filter) and of [raspberry_heartbeat.js] (error-log scanner, GitHub
    upsert and retry loop), with the properties the specification states
    about them.

    Conventions.
    - A JavaScript string is the list of its UTF-16 code units ([list N]).
    - A time value is an integer number of milliseconds since the epoch;
      a Number that may be NaN is an [option Z] ([None] is NaN).
    - What ECMAScript leaves to the implementation or to the host (the
      parser behind [new Date(string)] for non-ISO strings, the local time
      zone) is a [Variable] of the section that uses it; a concrete
      instance (V8's parser on the strings the trimmer builds, the UTC
      zone) is given afterwards and used to run the code on examples. *)

From stdpp Require Import gmap list strings.
From Stdlib Require Import ZArith Lia DecimalString.

Local Open Scope Z_scope.

(* ================================================================== *)
(** * JavaScript strings *)
(* ================================================================== *)

Abbreviation jsstring := (list N).

(** The code units of an ASCII literal. *)
Definition lit (s : string) : jsstring :=
  Ascii.N_of_ascii <$> String.list_ascii_of_string s.

(** [`${n}`] for an integer Number [n] below 1e21 in absolute value
    (from there on JavaScript prints the exponent form). *)
Definition show_Z (n : Z) : jsstring :=
  lit (NilZero.string_of_int (Z.to_int n)).

Definition LF : N := 10%N.

(** [s.split('\n')]: the pieces between line feeds; never empty. *)
Fixpoint split_lines_aux (cur : jsstring) (s : jsstring) : list jsstring :=
  match s with
  | [] => [cur]
  | c :: r =>
      if N.eqb c LF then cur :: split_lines_aux [] r
      else split_lines_aux (cur ++ [c]) r
  end.

Definition split_lines (s : jsstring) : list jsstring := split_lines_aux [] s.

(** [lines.join('\n')]. *)
Fixpoint join_lines (ls : list jsstring) : jsstring :=
  match ls with
  | [] => []
  | [l] => l
  | l :: rest => l ++ LF :: join_lines rest
  end.

(** [\d] and [\s] of a JavaScript regular expression (no [u] flag). *)
Definition is_digit (c : N) : bool := ((48 <=? c) && (c <=? 57))%N.

Definition is_space (c : N) : bool :=
  (match c with
   | 9 | 10 | 11 | 12 | 13 | 32 | 160 | 5760
   | 8232 | 8233 | 8239 | 8287 | 12288 | 65279 => true
   | _ => (8192 <=? c) && (c <=? 8202)
   end)%N.

(* ================================================================== *)
(** * ECMAScript time values (ECMA-262, Date objects) *)
(* ================================================================== *)

Module ES.

Definition msPerDay : Z := 86400000.
Definition msPerHour : Z := 3600000.
Definition msPerMinute : Z := 60000.
Definition msPerSecond : Z := 1000.

Definition Day (t : Z) : Z := t / msPerDay.
Definition TimeWithinDay (t : Z) : Z := t mod msPerDay.

Definition DaysInYear (y : Z) : Z :=
  if negb (y mod 4 =? 0) then 365
  else if negb (y mod 100 =? 0) then 366
  else if negb (y mod 400 =? 0) then 365
  else 366.

Definition DayFromYear (y : Z) : Z :=
  365 * (y - 1970) + (y - 1969) / 4 - (y - 1901) / 100 + (y - 1601) / 400.

(** The year that contains day number [d]: the largest [y] with
    [DayFromYear y <= d] (see [year_of_day_spec]). *)
Definition year_of_day (d : Z) : Z :=
  let y0 := 1970 + (400 * d) / 146097 in
  if d <? DayFromYear y0 then y0 - 1
  else if DayFromYear (y0 + 1) <=? d then y0 + 1
  else y0.

Definition YearFromTime (t : Z) : Z := year_of_day (Day t).
Definition InLeapYear (t : Z) : bool := DaysInYear (YearFromTime t) =? 366.
Definition DayWithinYear (t : Z) : Z := Day t - DayFromYear (YearFromTime t).

(** Days of the year before month [m] (0 = January). *)
Definition daysBeforeMonth (leap : bool) (m : Z) : Z :=
  let l := if leap then 1 else 0 in
  match m with
  | 0 => 0
  | 1 => 31
  | 2 => 59 + l
  | 3 => 90 + l
  | 4 => 120 + l
  | 5 => 151 + l
  | 6 => 181 + l
  | 7 => 212 + l
  | 8 => 243 + l
  | 9 => 273 + l
  | 10 => 304 + l
  | _ => 334 + l
  end.

Definition MonthFromTime (t : Z) : Z :=
  let d := DayWithinYear t in
  let l := if InLeapYear t then 1 else 0 in
  if d <? 31 then 0
  else if d <? 59 + l then 1
  else if d <? 90 + l then 2
  else if d <? 120 + l then 3
  else if d <? 151 + l then 4
  else if d <? 181 + l then 5
  else if d <? 212 + l then 6
  else if d <? 243 + l then 7
  else if d <? 273 + l then 8
  else if d <? 304 + l then 9
  else if d <? 334 + l then 10
  else 11.

Definition DateFromTime (t : Z) : Z :=
  DayWithinYear t - daysBeforeMonth (InLeapYear t) (MonthFromTime t) + 1.

Definition HourFromTime (t : Z) : Z := (t / msPerHour) mod 24.
Definition MinFromTime (t : Z) : Z := (t / msPerMinute) mod 60.
Definition SecFromTime (t : Z) : Z := (t / msPerSecond) mod 60.
Definition msFromTime (t : Z) : Z := t mod msPerSecond.

(** [MakeDay(year, month, date)] on integers: the day number of the first
    of the month, plus [date - 1]. *)
Definition MakeDay (year month date : Z) : Z :=
  let ym := year + month / 12 in
  let mn := month mod 12 in
  DayFromYear ym + daysBeforeMonth (DaysInYear ym =? 366) mn + date - 1.

Definition MakeTime (hour min sec ms : Z) : Z :=
  hour * msPerHour + min * msPerMinute + sec * msPerSecond + ms.

Definition MakeDate (day time : Z) : Z := day * msPerDay + time.

(** [TimeClip]: a time value further than 8.64e15 ms from the epoch is
    NaN (an Invalid Date). *)
Definition maxTime : Z := 8640000000000000.

Definition TimeClip (t : Z) : option Z :=
  if Z.abs t <=? maxTime then Some t else None.

(** Relational operator [a >= b] on Numbers: false when either is NaN. *)
Definition num_ge (a b : option Z) : bool :=
  match a, b with
  | Some x, Some y => y <=? x
  | _, _ => false
  end.

(** Decimal digits. *)
Definition digit (k : Z) : N := (48 + Z.to_N (k mod 10))%N.
Definition pad2 (n : Z) : jsstring := [digit (n / 10); digit n].
Definition pad3 (n : Z) : jsstring := [digit (n / 100); digit (n / 10); digit n].
Definition pad4 (n : Z) : jsstring :=
  [digit (n / 1000); digit (n / 100); digit (n / 10); digit n].
Definition pad6 (n : Z) : jsstring :=
  [digit (n / 100000); digit (n / 10000); digit (n / 1000);
   digit (n / 100); digit (n / 10); digit n].

(** [Date.prototype.toISOString] of a valid time value:
    [YYYY-MM-DDTHH:mm:ss.sssZ], with the expanded year [±YYYYYY] outside
    0..9999. *)
Definition isoYear (y : Z) : jsstring :=
  if (0 <=? y) && (y <=? 9999) then pad4 y
  else if y <? 0 then lit "-" ++ pad6 (- y)
  else lit "+" ++ pad6 y.

Definition toISOString (t : Z) : jsstring :=
  isoYear (YearFromTime t) ++ lit "-" ++ pad2 (MonthFromTime t + 1) ++ lit "-"
    ++ pad2 (DateFromTime t) ++ lit "T" ++ pad2 (HourFromTime t) ++ lit ":"
    ++ pad2 (MinFromTime t) ++ lit ":" ++ pad2 (SecFromTime t) ++ lit "."
    ++ pad3 (msFromTime t) ++ lit "Z".

End ES.

(** [s.replace('T', ' ')]: the first occurrence only. *)
Fixpoint replace_first (a b : N) (s : jsstring) : jsstring :=
  match s with
  | [] => []
  | c :: r => if N.eqb c a then b :: r else c :: replace_first a b r
  end.

(** [s.substring(0, n)]. *)
Definition substring0 (n : nat) (s : jsstring) : jsstring := take n s.

(* ================================================================== *)
(** * trim_heartbeat_log.js *)
(* ================================================================== *)

Module Trim.

(** ** The header pattern
    [/at\s+(\d{4}-\d{2}-\d{2}\s+\d{2}:\d{2}:\d{2})\s+UTC/]

    Every piece of the pattern is deterministic: a greedy [\s+] is always
    followed by something that is not white space, so giving white space
    back never helps and the match can be read left to right. *)

(** [\s*], greedy: the leading white space and what follows it. *)
Fixpoint span_space (s : jsstring) : jsstring * jsstring :=
  match s with
  | c :: r =>
      if is_space c then let '(w, r') := span_space r in (c :: w, r')
      else ([], s)
  | [] => ([], [])
  end.

(** [\s+]: at least one white-space unit. *)
Definition re_spaces1 (s : jsstring) : option (jsstring * jsstring) :=
  match s with
  | c :: _ => if is_space c then Some (span_space s) else None
  | [] => None
  end.

(** [\d{n}]. *)
Fixpoint re_digits (n : nat) (s : jsstring) : option (jsstring * jsstring) :=
  match n with
  | O => Some ([], s)
  | S n' =>
      match s with
      | c :: r =>
          if is_digit c then
            match re_digits n' r with
            | Some (ds, r') => Some (c :: ds, r')
            | None => None
            end
          else None
      | [] => None
      end
  end.

(** A literal. *)
Fixpoint re_lit (l : jsstring) (s : jsstring) : option (jsstring * jsstring) :=
  match l with
  | [] => Some ([], s)
  | a :: l' =>
      match s with
      | c :: r =>
          if N.eqb a c then
            match re_lit l' r with
            | Some (m, r') => Some (c :: m, r')
            | None => None
            end
          else None
      | [] => None
      end
  end.

(** Sequencing of two pieces: the matched text is concatenated. *)
Definition re_seq (p q : jsstring -> option (jsstring * jsstring))
    (s : jsstring) : option (jsstring * jsstring) :=
  match p s with
  | Some (m1, r1) =>
      match q r1 with
      | Some (m2, r2) => Some (m1 ++ m2, r2)
      | None => None
      end
  | None => None
  end.

Infix ">>" := re_seq (at level 59, right associativity).

(** The capture group [(\d{4}-\d{2}-\d{2}\s+\d{2}:\d{2}:\d{2})]. *)
Definition re_timestamp : jsstring -> option (jsstring * jsstring) :=
  re_digits 4 >> re_lit (lit "-") >> re_digits 2 >> re_lit (lit "-")
    >> re_digits 2 >> re_spaces1
    >> re_digits 2 >> re_lit (lit ":") >> re_digits 2 >> re_lit (lit ":")
    >> re_digits 2.

(** The whole pattern, anchored at the start of [s]; returns group 1. *)
Definition match_here (s : jsstring) : option jsstring :=
  match (re_lit (lit "at") >> re_spaces1) s with
  | Some (_, r1) =>
      match re_timestamp r1 with
      | Some (ts, r2) =>
          match (re_spaces1 >> re_lit (lit "UTC")) r2 with
          | Some _ => Some ts
          | None => None
          end
      | None => None
      end
  | None => None
  end.

(** [line.match(/.../)]: the leftmost position where the pattern matches;
    [Some ts] is a match with [match[1] = ts], [None] is [null]. *)
Fixpoint header_match (line : jsstring) : option jsstring :=
  match match_here line with
  | Some ts => Some ts
  | None =>
      match line with
      | [] => None
      | _ :: r => header_match r
      end
  end.

(** ** Shapes of text used in the statements below *)

(** A line holds no line feed. *)
Definition no_LF (l : jsstring) : Prop := Forall (fun c => c <> LF) l.

(** Exactly [n] decimal digits. *)
Definition digits (n : nat) (ds : jsstring) : Prop :=
  length ds = n /\ Forall (fun c => is_digit c = true) ds.

(** The text [YYYY-MM-DD HH:MM:SS], from its six fields. *)
Definition timestamp_text (y mo d h mi s : jsstring) : jsstring :=
  y ++ lit "-" ++ mo ++ lit "-" ++ d ++ lit " " ++ h ++ lit ":" ++ mi
    ++ lit ":" ++ s.

(** The characters of a decimal numeral: digits and the sign. *)
Definition numeral_char (c : N) : Prop := is_digit c = true \/ c = 45%N.

(** ** Configuration and the file system *)

Record Config := {
  heartbeat_log : jsstring;      (* config.heartbeat_log *)
  log_days_to_keep : Z           (* config.log_days_to_keep *)
}.

(** Files are regular files addressed by path; a file holds its decoded
    text. *)
Abbreviation FileSystem := (gmap jsstring jsstring).

Section Filter.

(** The host's local time zone adjustment, [LocalTZA(t, isUTC)]. *)
Variable LocalTZA : Z -> bool -> Z.

(** [new Date(s).getTime()] for a string [s]: implementation-defined for
    strings that are not in the ISO format; [None] is NaN. It never
    throws. *)
Variable Date_parse : jsstring -> option Z.

Definition LocalTime (t : Z) : Z := t + LocalTZA t true.
Definition UTC (t : Z) : Z := t - LocalTZA t false.

(** [d.getDate()] and [d.setDate(dt)] on a valid Date with time value
    [tv]; [setDate] returns the new time value. *)
Definition getDate (tv : Z) : Z := ES.DateFromTime (LocalTime tv).

Definition setDate (tv : Z) (dt : Z) : option Z :=
  let t := LocalTime tv in
  let newDate :=
    ES.MakeDate (ES.MakeDay (ES.YearFromTime t) (ES.MonthFromTime t) dt)
                (ES.TimeWithinDay t) in
  ES.TimeClip (UTC newDate).

(** Lines 34-37: [cutoffDate = new Date(now);
    cutoffDate.setDate(cutoffDate.getDate() - daysToKeep);
    cutoffTimestamp = cutoffDate.getTime()]. *)
Definition cutoffTimestamp (now : Z) (daysToKeep : Z) : option Z :=
  setDate now (getDate now - daysToKeep).

(** The variables of the loop (lines 43-46). *)
Record LoopState := {
  currentTimestamp : jsstring;
  currentTimestampMs : option Z;
  keepCurrentBlock : bool;
  output : list jsstring
}.

Definition initial : LoopState :=
  {| currentTimestamp := []; currentTimestampMs := Some 0;
     keepCurrentBlock := false; output := [] |}.

(** The body of the loop (lines 49-79). Neither [new Date(...)] nor
    [getTime()] throws, so the [catch] branch is never taken: an
    unparseable timestamp gives NaN and fails the comparison. *)
Definition process_line (cutoff : option Z) (st : LoopState)
    (line : jsstring) : LoopState :=
  match header_match line with
  | Some ts =>
      let ms := Date_parse (ts ++ lit " UTC") in
      if ES.num_ge ms cutoff then
        {| currentTimestamp := ts; currentTimestampMs := ms;
           keepCurrentBlock := true; output := output st ++ [line] |}
      else
        {| currentTimestamp := ts; currentTimestampMs := ms;
           keepCurrentBlock := false; output := output st |}
  | None =>
      if keepCurrentBlock st then
        {| currentTimestamp := currentTimestamp st;
           currentTimestampMs := currentTimestampMs st;
           keepCurrentBlock := keepCurrentBlock st;
           output := output st ++ [line] |}
      else st
  end.

Definition scan (cutoff : option Z) (lines : list jsstring) : LoopState :=
  fold_left (process_line cutoff) lines initial.

(** *** Notions used to state what the loop does *)

(** The decision the loop takes at a header line ([None]: not a header). *)
Definition header_decision (cutoff : option Z) (line : jsstring)
    : option bool :=
  match header_match line with
  | Some ts => Some (ES.num_ge (Date_parse (ts ++ lit " UTC")) cutoff)
  | None => None
  end.

(** "The most recently seen header line was kept": the decision at the
    last header line of [pre]; false when [pre] has no header line. *)
Definition last_header_kept (cutoff : option Z) (pre : list jsstring) : bool :=
  default false (last (omap (header_decision cutoff) pre)).

(** The lines the loop pushes when it is entered with
    [keepCurrentBlock = kb], as a function of the remaining lines. *)
Fixpoint kept_lines (cutoff : option Z) (kb : bool) (lines : list jsstring)
    : list jsstring :=
  match lines with
  | [] => []
  | line :: rest =>
      match header_decision cutoff line with
      | Some true => line :: kept_lines cutoff true rest
      | Some false => kept_lines cutoff false rest
      | None =>
          if kb then line :: kept_lines cutoff kb rest
          else kept_lines cutoff kb rest
      end
  end.

(** Lines 82-84: the two maintenance lines. *)
Definition formattedDate (now : Z) : jsstring :=
  substring0 19 (replace_first 84 32 (ES.toISOString now)).

Definition trailer1 (now : Z) : jsstring :=
  lit "Heartbeat log maintenance successful at " ++ formattedDate now
    ++ lit " UTC".

Definition trailer2 (daysToKeep : Z) : jsstring :=
  lit "Removed entries older than " ++ show_Z daysToKeep ++ lit " days".

(** The lines written for a log with text [content] (lines 34-84). *)
Definition trimmedLines (now daysToKeep : Z) (content : jsstring)
    : list jsstring :=
  output (scan (cutoffTimestamp now daysToKeep) (split_lines content))
    ++ [trailer1 now; trailer2 daysToKeep].

Definition trimmedText (now daysToKeep : Z) (content : jsstring) : jsstring :=
  join_lines (trimmedLines now daysToKeep content).

(** [fs.writeFileSync(path, data)] is not atomic: the file is truncated
    and then grows; these are the file-system states a concurrent
    observer can see, the last one holding all of [data]. *)
Definition writeFileSync_states (path data : jsstring) (fs : FileSystem)
    : list FileSystem :=
  (fun k => <[path := take k data]> fs) <$> seq 0 (S (length data)).

(** [fs.renameSync(src, dst)]: one atomic step ([rename(2)]). *)
Definition renameSync (src dst : jsstring) (fs : FileSystem) : FileSystem :=
  match fs !! src with
  | Some data => <[dst := data]> (delete src fs)
  | None => fs
  end.

Definition tempFile (config : Config) : jsstring :=
  heartbeat_log config ++ lit ".tmp".

(** [trimHeartbeatLog()]: every file-system state from the start of the
    run to its end, in order. With no log file the run is a no-op (a
    warning is printed). *)
Definition trimHeartbeatLog_states (config : Config) (now : Z)
    (fs : FileSystem) : list FileSystem :=
  match fs !! heartbeat_log config with
  | None => [fs]
  | Some content =>
      let data := trimmedText now (log_days_to_keep config) content in
      let written := writeFileSync_states (tempFile config) data fs in
      fs :: written
         ++ [renameSync (tempFile config) (heartbeat_log config)
               (<[tempFile config := data]> fs)]
  end.

(** The file system when the run has ended. *)
Definition trimHeartbeatLog (config : Config) (now : Z) (fs : FileSystem)
    : FileSystem :=
  match fs !! heartbeat_log config with
  | None => fs
  | Some content =>
      renameSync (tempFile config) (heartbeat_log config)
        (<[tempFile config :=
             trimmedText now (log_days_to_keep config) content]> fs)
  end.

End Filter.

(** ** A concrete host: V8 in the UTC zone *)

Definition utcTZA (t : Z) (isUTC : bool) : Z := 0.

Definition digit_val (c : N) : Z := Z.of_N c - 48.

Fixpoint number_of (ds : jsstring) (acc : Z) : Z :=
  match ds with
  | [] => acc
  | c :: r => number_of r (10 * acc + digit_val c)
  end.

(** V8's date parser on the strings [process_line] hands to it,
    [YYYY-MM-DD<spaces>HH:MM:SS UTC], for the years 0100 to 9999: month
    1..12, day 1..31 (a day past the end of the month rolls over), hour
    0..23 (or 24:00:00), minute and second 0..59; anything else is NaN.
    Below year 100 V8 applies its rules for short years, which are left
    out here; such strings, and strings of any other shape, are outside
    the domain of this definition (it gives NaN for them). So are
    strings with U+2028 or U+2029 between date and time: the pattern's
    [\s] matches them and this definition reads them as spaces, while V8
    gives NaN. *)
Definition v8_parse (s : jsstring) : option Z :=
  match (re_digits 4) s with
  | Some (y, r1) =>
  match (re_lit (lit "-") >> re_digits 2) r1 with
  | Some (_ :: mo, r2) =>
  match (re_lit (lit "-") >> re_digits 2) r2 with
  | Some (_ :: d, r3) =>
  match (re_spaces1 >> re_digits 2) r3 with
  | Some (wh, r4) =>
  match (re_lit (lit ":") >> re_digits 2) r4 with
  | Some (_ :: mi, r5) =>
  match (re_lit (lit ":") >> re_digits 2) r5 with
  | Some (_ :: sec, r6) =>
      if bool_decide (r6 = lit " UTC") then
        let year := number_of y 0 in
        let month := number_of mo 0 in
        let day := number_of d 0 in
        let hour := number_of (snd (span_space wh)) 0 in
        let minute := number_of mi 0 in
        let second := number_of sec 0 in
        if (100 <=? year) && (1 <=? month) && (month <=? 12)
           && (1 <=? day) && (day <=? 31)
           && ((hour <=? 23) && (minute <=? 59) && (second <=? 59)
               || (hour =? 24) && (minute =? 0) && (second =? 0))
        then ES.TimeClip
               (ES.MakeDate (ES.MakeDay year (month - 1) day)
                            (ES.MakeTime hour minute second 0))
        else None
      else None
  | _ => None end
  | _ => None end
  | _ => None end
  | _ => None end
  | _ => None end
  | None => None
  end.

(** 2024-06-01 00:00:00 UTC; thirty days earlier is 2024-05-02. *)
Definition june_first : Z := 1717200000000.

(** The log of the examples. *)
Definition example_config : Config :=
  {| heartbeat_log := lit "/home/pi/raspi-monitor/logs/heartbeat.log";
     log_days_to_keep := 30 |}.

Definition example_fs (content : jsstring) : FileSystem :=
  {[ heartbeat_log example_config := content ]}.

End Trim.

(* ================================================================== *)
(** * raspberry_heartbeat.js *)
(* ================================================================== *)

Module Heartbeat.

(** ** JavaScript values that can sit in [response.data.sha] *)

Inductive JsValue :=
  | JUndefined
  | JNull
  | JBool (b : bool)
  | JNumber (n : Z)
  | JString (s : jsstring)
  | JObject.

(** [ToBoolean]. *)
Definition truthy (v : JsValue) : bool :=
  match v with
  | JUndefined | JNull => false
  | JBool b => b
  | JNumber n => negb (n =? 0)
  | JString s => negb (bool_decide (s = []))
  | JObject => true
  end.

(** ** Requests, responses and what the process does to the world *)

Inductive Method := GET | PUT.

(** [updateData]: [sha] is a property that may be absent. *)
Record UpdateData := {
  message : jsstring;
  content : jsstring;
  encoding : jsstring;
  sha : option JsValue
}.

Record Request := {
  method : Method;
  data : option UpdateData
}.

(** The parsed body: [null] (reading a property of it throws) or a value
    whose [sha] property is [data_sha] ([JUndefined] when it has none). *)
Inductive ResponseData :=
  | DataNull
  | DataWith (data_sha : JsValue).

Record Response := {
  statusCode : Z;
  response_data : ResponseData
}.

(** The promise of [httpsRequest] resolves with a response or rejects
    with an error. *)
Inductive HttpOutcome :=
  | Rejected (error_message : jsstring)
  | Resolved (r : Response).

Inductive ConsoleLevel := Log | Warn | Error.

Inductive Event :=
  | EvRequest (r : Request)
  | EvSleep (ms : Z)
  | EvConsole (level : ConsoleLevel) (text : jsstring).

(** The requests sent and the pauses taken in a stretch of events. *)
Definition requests_of (evs : list Event) : list Request :=
  omap (fun ev => match ev with EvRequest r => Some r | _ => None end) evs.

Definition sleeps_of (evs : list Event) : list Z :=
  omap (fun ev => match ev with EvSleep ms => Some ms | _ => None end) evs.

Definition is_put (r : Request) : bool :=
  match method r with PUT => true | GET => false end.

(** The pauses [i * 2000, (i + 1) * 2000, ...], [k] of them. *)
Definition backoffs (i : Z) (k : nat) : list Z :=
  (fun a => a * 2000) <$> seqZ i (Z.of_nat k).

(** ** Computations: a trace of events so far, and a result that is a
    value or a thrown error. What was done before a throw stays done. *)

Inductive Result (A : Type) :=
  | Ok (a : A)
  | Thrown (error_message : jsstring).
Arguments Ok {A} a.
Arguments Thrown {A} error_message.

Definition M (A : Type) : Type := list Event -> Result A * list Event.

Definition ret {A} (a : A) : M A := fun tr => (Ok a, tr).

Definition bind {A B} (c : M A) (k : A -> M B) : M B :=
  fun tr =>
    match c tr with
    | (Ok a, tr') => k a tr'
    | (Thrown e, tr') => (Thrown e, tr')
    end.

Definition throw {A} (e : jsstring) : M A := fun tr => (Thrown e, tr).

(** [try { c } catch (error) { handler(error.message) }]. *)
Definition try_catch {A} (c : M A) (handler : jsstring -> M A) : M A :=
  fun tr =>
    match c tr with
    | (Ok a, tr') => (Ok a, tr')
    | (Thrown e, tr') => handler e tr'
    end.

Definition emit (ev : Event) : M unit := fun tr => (Ok tt, tr ++ [ev]).

#[global] Instance M_ret : MRet M := @ret.
#[global] Instance M_bind : MBind M := fun A B k c => bind c k.

Definition console (level : ConsoleLevel) (text : jsstring) : M unit :=
  emit (EvConsole level text).

Definition sleep (ms : Z) : M unit := emit (EvSleep ms).

(** ** The error-log scanner's view of [ERROR_LOGS_DIR] *)

(** A directory entry: a regular file with its bytes, or something that
    [stat], [open] or [read] fails on. *)
Inductive Entry :=
  | Regular (bytes : list N)
  | Failing (error_message : jsstring).

Inductive Directory :=
  | Unlistable (error_message : jsstring)
  | Listing (entries : list (jsstring * Entry)).

Record ErrorLogStatus := {
  has_error : bool;
  error_message_text : jsstring;      (* the [message] property *)
  latest_log : option jsstring;       (* [None] is null *)
  log_content : option jsstring       (* [None] is null *)
}.

Section Reporter.

(** [ERROR_LOG_PATTERN]: for a name the pattern matches, the three
    capture groups as a template literal renders them. *)
Variable ERROR_LOG_PATTERN : jsstring -> option (jsstring * jsstring * jsstring).

(** [a.localeCompare(b)] (host collation) and [buffer.toString('utf8')]. *)
Variable localeCompare : jsstring -> jsstring -> Z.
Variable Buffer_toString : list N -> jsstring.

(** The network: the outcome of a request, given all that happened
    before it. *)
Variable network : list Event -> Request -> HttpOutcome.

(** The collector's record and its serialisation
    [Buffer.from(JSON.stringify(info, null, 2)).toString('base64')]. *)
Variable SystemInfo : Type.
Variable info_timestamp : SystemInfo -> jsstring.
Variable serialize : SystemInfo -> jsstring.
Variable getSystemInfo : M SystemInfo.

(** What [console.error] prints for a caught error object with the given
    message (line 408 passes the object, not its message): in Node
    [Error: <message>] followed by the stack. *)
Variable inspect : jsstring -> jsstring.

(** [httpsRequest(options, data)]. *)
Definition httpsRequest (req : Request) : M Response :=
  fun tr =>
    match network tr req with
    | Rejected e => (Thrown e, tr ++ [EvRequest req])
    | Resolved r => (Ok r, tr ++ [EvRequest req])
    end.

(** *** checkErrorLog (lines 219-286) *)

Definition fullDate (m : jsstring * jsstring * jsstring) : jsstring :=
  let '(g1, g2, g3) := m in g1 ++ lit "-" ++ g2 ++ lit "-" ++ g3.

(** The comparator handed to [sort] (lines 237-246). *)
Definition compareLogs (a b : jsstring) : Z :=
  match ERROR_LOG_PATTERN a, ERROR_LOG_PATTERN b with
  | Some dateA, Some dateB => localeCompare (fullDate dateB) (fullDate dateA)
  | _, _ => 0
  end.

(** [Array.prototype.sort(cmp)]: a stable sort; an element moves behind
    another only when the comparator puts it strictly after. *)
Fixpoint sort_insert (cmp : jsstring -> jsstring -> Z) (x : jsstring)
    (l : list jsstring) : list jsstring :=
  match l with
  | [] => [x]
  | y :: r => if cmp x y <=? 0 then x :: l else y :: sort_insert cmp x r
  end.

Definition sort (cmp : jsstring -> jsstring -> Z) (l : list jsstring)
    : list jsstring :=
  foldr (sort_insert cmp) [] l.

Definition lookup_entry (name : jsstring) (entries : list (jsstring * Entry))
    : option Entry :=
  (fun found => snd (snd found)) <$> list_find (fun e => fst e = name) entries.

Definition failed (e : jsstring) : ErrorLogStatus :=
  {| has_error := false;
     error_message_text := lit "Error checking logs: " ++ e;
     latest_log := None;
     log_content := None |}.

Definition checkErrorLog (dir : Directory) : ErrorLogStatus :=
  match dir with
  | Unlistable e => failed e
  | Listing entries =>
      let files := fst <$> entries in
      let errorLogFiles :=
        filter (fun file => is_Some (ERROR_LOG_PATTERN file)) files in
      match sort compareLogs errorLogFiles with
      | [] =>
          {| has_error := false;
             error_message_text := lit "No error logs found";
             latest_log := None;
             log_content := None |}
      | latestLogFile :: _ =>
          match lookup_entry latestLogFile entries with
          | Some (Regular bytes) =>
              let fileSize := Z.of_nat (length bytes) in
              let logContent :=
                if 0 <? fileSize then
                  let buffer := take (Z.to_nat (Z.min 500 fileSize)) bytes in
                  Buffer_toString buffer
                    ++ (if 500 <? fileSize then lit "..." else [])
                else [] in
              {| has_error := 0 <? fileSize;
                 error_message_text :=
                   if 0 <? fileSize
                   then lit "Error log contains " ++ show_Z fileSize
                          ++ lit " bytes"
                   else lit "Error log is empty";
                 latest_log := Some latestLogFile;
                 log_content :=
                   if 0 <? fileSize then Some logContent else None |}
          | Some (Failing e) => failed e
          | None => failed (lit "ENOENT")
          end
      end
  end.

(** *** updateGithubFile (lines 330-381) *)

Definition getRequest : Request := {| method := GET; data := None |}.

(** Lines 349-358: the current [sha], or null. *)
Definition fetchSha : M (option JsValue) :=
  try_catch
    (response ← httpsRequest getRequest;
     if statusCode response =? 200 then
       match response_data response with
       | DataWith v => ret (Some v)
       | DataNull => throw (lit "Cannot read properties of null")
       end
     else ret None)
    (fun _ =>
       console Log (lit "File does not exist yet, will create it");;
       ret None).

(** A variable holding null or a value, tested with [if (sha)]. *)
Definition sha_truthy (sha : option JsValue) : bool :=
  match sha with
  | Some v => truthy v
  | None => false
  end.

Definition updateData (sha : option JsValue) (fileContent : SystemInfo)
    : UpdateData :=
  {| message := if sha_truthy sha then lit "Update heartbeat status"
                else lit "Create heartbeat status file";
     content := serialize fileContent;
     encoding := lit "base64";
     sha := if sha_truthy sha then sha else None |}.

Definition updateGithubFile (fileContent : SystemInfo) : M bool :=
  try_catch
    (sha ← fetchSha;
     updateResponse ←
       httpsRequest {| method := PUT;
                       data := Some (updateData sha fileContent) |};
     ret ((statusCode updateResponse =? 200)
          || (statusCode updateResponse =? 201)))
    (fun e =>
       console Error (lit "Failed to update GitHub file: " ++ e);;
       ret false).

(** *** Notions used to state what the upsert does *)

(** The value of the variable [sha] after the fetch, from the outcome of
    the GET request. *)
Definition fetched_sha (o : HttpOutcome) : option JsValue :=
  match o with
  | Resolved r =>
      if statusCode r =? 200 then
        match response_data r with
        | DataWith v => Some v
        | DataNull => None
        end
      else None
  | Rejected _ => None
  end.

(** The write request that creates the document, and the one that
    updates version [v] of it. *)
Definition createRequest (fileContent : SystemInfo) : Request :=
  {| method := PUT;
     data := Some {| message := lit "Create heartbeat status file";
                     content := serialize fileContent;
                     encoding := lit "base64";
                     sha := None |} |}.

Definition updateRequest (v : JsValue) (fileContent : SystemInfo) : Request :=
  {| method := PUT;
     data := Some {| message := lit "Update heartbeat status";
                     content := serialize fileContent;
                     encoding := lit "base64";
                     sha := Some v |} |}.

(** What the upsert returns for the outcome of its write request. *)
Definition write_succeeded (o : HttpOutcome) : bool :=
  match o with
  | Resolved r => (statusCode r =? 200) || (statusCode r =? 201)
  | Rejected _ => false
  end.

(** The outcomes of the write requests in the events [evs] that follow
    the history [hist]: [true] for a write that made the upsert return
    true. *)
Fixpoint write_outcomes (hist evs : list Event) : list bool :=
  match evs with
  | [] => []
  | ev :: rest =>
      match ev with
      | EvRequest r =>
          if is_put r then
            write_succeeded (network hist r)
              :: write_outcomes (hist ++ [ev]) rest
          else write_outcomes (hist ++ [ev]) rest
      | _ => write_outcomes (hist ++ [ev]) rest
      end
  end.

(** *** main (lines 386-410) *)

Definition attempts : Z := 3.

(** The [for] loop of lines 393-399, entered with counter [i] and
    [remaining = attempts - i + 1] iterations to go; its value is the
    variable [success] when the loop is left. *)
Fixpoint retryLoop (remaining : nat) (i : Z) (systemInfo : SystemInfo)
    : M bool :=
  match remaining with
  | O => ret false
  | S k =>
      success ← updateGithubFile systemInfo;
      if (success : bool) then ret true
      else
        let backoffMs := i * 2000 in
        console Warn
          (lit "GitHub update failed (attempt " ++ show_Z i ++ lit "/"
             ++ show_Z attempts ++ lit "). Retrying in " ++ show_Z backoffMs
             ++ lit " ms...");;
        sleep backoffMs;;
        retryLoop k (i + 1) systemInfo
  end.

Definition main : M unit :=
  try_catch
    (systemInfo ← getSystemInfo;
     success ← retryLoop (Z.to_nat attempts) 1 systemInfo;
     let statusMessage :=
       if (success : bool) then lit "successful" else lit "failed" in
     console Log
       (lit "Heartbeat update " ++ statusMessage ++ lit " at "
          ++ info_timestamp systemInfo ++ lit " UTC");;
     if negb success return M unit then
       console Error
         (lit "Failed to update GitHub file. Check your token and network connection.")
     else ret tt)
    (fun e => console Error (lit "Error in heartbeat process: " ++ inspect e)).

End Reporter.

(** *** The shape of the trace of the loop *)

(** What the loop does after run number [i] has failed (lines 396-398):
    the warning, then the pause. *)
Definition pause (i : Z) : list Event :=
  [EvConsole Warn
     (lit "GitHub update failed (attempt " ++ show_Z i ++ lit "/"
        ++ show_Z attempts ++ lit "). Retrying in " ++ show_Z (i * 2000)
        ++ lit " ms...");
   EvSleep (i * 2000)].

(** The events of consecutive failed runs numbered [i], [i + 1], ...,
    given the events of each run: every run is followed by its pause. *)
Fixpoint failed_runs (i : Z) (runs : list (list Event)) : list Event :=
  match runs with
  | [] => []
  | run :: rest => run ++ pause i ++ failed_runs (i + 1) rest
  end.

(** ** A concrete host for the examples *)

(** The README's pattern [^error_(\d{4})-(\d{2})-(\d{2})\.log$]. *)
Definition readme_pattern (name : jsstring)
    : option (jsstring * jsstring * jsstring) :=
  match Trim.re_lit (lit "error_") name with
  | Some (_, r0) =>
  match Trim.re_digits 4 r0 with
  | Some (y, r1) =>
  match Trim.re_lit (lit "-") r1 with
  | Some (_, r2) =>
  match Trim.re_digits 2 r2 with
  | Some (m, r3) =>
  match Trim.re_lit (lit "-") r3 with
  | Some (_, r4) =>
  match Trim.re_digits 2 r4 with
  | Some (d, r5) =>
      if bool_decide (r5 = lit ".log") then Some (y, m, d) else None
  | None => None end
  | None => None end
  | None => None end
  | None => None end
  | None => None end
  | None => None
  end.

(** Comparison by code units (what every collation does on digits). *)
Fixpoint codeUnitCompare (a b : jsstring) : Z :=
  match a, b with
  | [], [] => 0
  | [], _ :: _ => -1
  | _ :: _, [] => 1
  | x :: a', y :: b' =>
      if (x <? y)%N then -1
      else if (y <? x)%N then 1
      else codeUnitCompare a' b'
  end.

(** Decoding of bytes that are all ASCII. *)
Definition ascii_toString (bytes : list N) : jsstring := bytes.

(** A store that has no document yet: the fetch answers 404, the write
    201. *)
Definition first_run_network (tr : list Event) (req : Request) : HttpOutcome :=
  match method req with
  | GET => Resolved {| statusCode := 404; response_data := DataWith JUndefined |}
  | PUT => Resolved {| statusCode := 201; response_data := DataWith JObject |}
  end.

(** A store that holds version [abc123] of the document. *)
Definition later_run_network (tr : list Event) (req : Request) : HttpOutcome :=
  match method req with
  | GET => Resolved {| statusCode := 200;
                       response_data := DataWith (JString (lit "abc123")) |}
  | PUT => Resolved {| statusCode := 200; response_data := DataWith JObject |}
  end.

(** A network that is down. *)
Definition dead_network (tr : list Event) (req : Request) : HttpOutcome :=
  Rejected (lit "ECONNRESET").

End Heartbeat.

(* ================================================================== *)
(** * raspberry_heartbeat.js: the collector *)
(* ================================================================== *)

Module Collector.

(** [s.trim()]: white space and line terminators are removed at both
    ends (the same code units as [\s]). *)
Fixpoint trimStart (s : jsstring) : jsstring :=
  match s with
  | c :: r => if is_space c then trimStart r else s
  | [] => []
  end.

Definition trim (s : jsstring) : jsstring :=
  rev (trimStart (rev (trimStart s))).

(** Line 316: [new Date().toISOString().replace('T', ' ').substring(0, 19)]. *)
Definition timestamp (now : Z) : jsstring :=
  substring0 19 (replace_first 84 32 (ES.toISOString now)).

(** Lines 130-133. *)
Record Candidate := {
  hostname : jsstring;
  path : jsstring;
  port : Z
}.

Definition candidates : list Candidate :=
  [ {| hostname := lit "api.ipify.org"; path := lit "/"; port := 443 |};
    {| hostname := lit "ifconfig.me"; path := lit "/ip"; port := 443 |} ].

(** The promise of lines 137-159: the response ended with the body
    [rawData] (whatever its status), or the request failed or timed
    out. *)
Inductive LookupOutcome :=
  | LookupRejected (error_message : jsstring)
  | LookupEnded (rawData : jsstring).

(** What a run of [getExternalIp] returns and does: the endpoints it
    contacted, in order, and the warnings it printed. *)
Record IpRun := {
  ip_result : jsstring;
  ip_contacted : list Candidate;
  ip_warnings : list jsstring
}.

Section ExternalIp.

(** The outcome of a lookup, given the endpoints contacted before it. *)
Variable lookup : list Candidate -> Candidate -> LookupOutcome.

(** The [for] loop of lines 135-165 over the remaining candidates, and
    the fallback of line 168. An empty string is falsy: [if (ip)] lets a
    blank answer pass to the next endpoint without a warning. *)
Fixpoint tryCandidates (cs : list Candidate) (contacted : list Candidate)
    (warnings : list jsstring) : IpRun :=
  match cs with
  | [] =>
      {| ip_result := lit "Unable to determine";
         ip_contacted := contacted;
         ip_warnings := warnings |}
  | c :: rest =>
      match lookup contacted c with
      | LookupEnded rawData =>
          let ip := trim rawData in
          if bool_decide (ip = []) then
            tryCandidates rest (contacted ++ [c]) warnings
          else
            {| ip_result := ip;
               ip_contacted := contacted ++ [c];
               ip_warnings := warnings |}
      | LookupRejected e =>
          tryCandidates rest (contacted ++ [c])
            (warnings
               ++ [lit "External IP lookup failed via " ++ hostname c
                     ++ lit ": " ++ e])
      end
  end.

Definition getExternalIp : IpRun := tryCandidates candidates [] [].

End ExternalIp.

(** The line [main] prints when the loop is over (lines 401-402), for a
    record whose timestamp was taken at [now]. *)
Definition heartbeatLine (success : bool) (now : Z) : jsstring :=
  lit "Heartbeat update "
    ++ (if success then lit "successful" else lit "failed")
    ++ lit " at " ++ timestamp now ++ lit " UTC".

(** The message of line 405. *)
Definition failureLine : jsstring :=
  lit "Failed to update GitHub file. Check your token and network connection.".

(** The warning of line 397 for attempt [i]. *)
Definition retryWarning (i : Z) : jsstring :=
  lit "GitHub update failed (attempt " ++ show_Z i ++ lit "/"
    ++ show_Z Heartbeat.attempts ++ lit "). Retrying in " ++ show_Z (i * 2000)
    ++ lit " ms...".

End Collector.

(* ================================================================== *)
(** * .github/workflows/monitor-heartbeat.yml: the check of the file *)
(* ================================================================== *)

Module Workflow.

(** [$(( ($CURRENT_EPOCH - $LAST_HEARTBEAT_EPOCH) / 3600 ))]: shell
    arithmetic divides towards zero. *)
Definition DIFF_HOURS (current_epoch last_epoch : Z) : Z :=
  Z.quot (current_epoch - last_epoch) 3600.

Inductive Source := SourceFile | SourceIssue | SourceUnknown.
Inductive Status := Online | Offline | StatusUnknown.
Inductive AlertType := AlertOffline | AlertErrorLog.

(** The variables the steps pass on through [$GITHUB_ENV]; [None] is a
    variable that was not set. *)
Record Env := {
  source : option Source;
  status : option Status;
  alert_type : option AlertType;
  has_error_logs : option bool
}.

(** The step "Check heartbeat file" (lines 45-89) when both dates were
    read: [has_error] says that [.error_log.has_error] of the snapshot is
    [true]. The texts copied from the snapshot are taken to hold no line
    feed, so that each [echo] sets one variable. *)
Definition check_file (current_epoch last_epoch : Z) (has_error : bool)
    (env : Env) : Env :=
  if 3 <? DIFF_HOURS current_epoch last_epoch then
    {| source := source env; status := Some Offline;
       alert_type := Some AlertOffline;
       has_error_logs := has_error_logs env |}
  else if has_error then
    {| source := source env; status := Some Online;
       alert_type := Some AlertErrorLog; has_error_logs := Some true |}
  else
    {| source := source env; status := Some Online;
       alert_type := alert_type env; has_error_logs := Some false |}.

(** The conditions of the two mail steps (lines 136-138 and 176). *)
Definition sends_offline_mail (env : Env) : bool :=
  match alert_type env with Some AlertOffline => true | _ => false end
  || match source env with Some SourceUnknown => true | _ => false end.

Definition sends_error_log_mail (env : Env) : bool :=
  match alert_type env with Some AlertErrorLog => true | _ => false end
  && match has_error_logs env with Some true => true | _ => false end.

(** The variables after "Check heartbeat source" found the file. *)
Definition file_found : Env :=
  {| source := Some SourceFile; status := None; alert_type := None;
     has_error_logs := None |}.

(** The step "Check heartbeat issue comments" (lines 91-131):
    [last_comment_epoch] is the time of the latest comment, [None] when
    [$LAST_COMMENT_TIME] is empty. *)
Definition check_issue (current_epoch : Z) (last_comment_epoch : option Z)
    (env : Env) : Env :=
  match last_comment_epoch with
  | None =>
      {| source := source env; status := Some StatusUnknown;
         alert_type := Some AlertOffline;
         has_error_logs := has_error_logs env |}
  | Some last_epoch =>
      if 13 <? DIFF_HOURS current_epoch last_epoch then
        {| source := source env; status := Some Offline;
           alert_type := Some AlertOffline;
           has_error_logs := has_error_logs env |}
      else
        {| source := source env; status := Some Online;
           alert_type := alert_type env;
           has_error_logs := has_error_logs env |}
  end.

(** The variables after "Check heartbeat source" found no file but the
    issue. *)
Definition issue_found : Env :=
  {| source := Some SourceIssue; status := None; alert_type := None;
     has_error_logs := None |}.

End Workflow.

(* ================================================================== *)
(** * Further notions used in the statements *)
(* ================================================================== *)

Module Notions.
Import Trim.

(** One or more white-space code units. *)
Definition spaces1 (w : jsstring) : Prop :=
  w <> [] /\ Forall (fun c => is_space c = true) w.

(** Text of the shape of capture group 1,
    [\d{4}-\d{2}-\d{2}\s+\d{2}:\d{2}:\d{2}]. *)
Definition timestamp_shape (ts : jsstring) : Prop :=
  exists y mo d w h mi s,
    ts = y ++ lit "-" ++ mo ++ lit "-" ++ d ++ w ++ h ++ lit ":" ++ mi
           ++ lit ":" ++ s
    /\ digits 4 y /\ digits 2 mo /\ digits 2 d /\ spaces1 w
    /\ digits 2 h /\ digits 2 mi /\ digits 2 s.

(** The header pattern occurs in [line] right after the prefix [pre],
    with [ts] as group 1. *)
Definition header_at (line pre ts : jsstring) : Prop :=
  exists w1 w2 post,
    line = pre ++ lit "at" ++ w1 ++ ts ++ w2 ++ lit "UTC" ++ post
    /\ spaces1 w1 /\ timestamp_shape ts /\ spaces1 w2.

(** What follows white space that the pattern matched greedily: the end
    of the text or a code unit that is not white space. *)
Definition not_space_next (r : jsstring) : Prop :=
  match r with
  | [] => True
  | c :: _ => is_space c = false
  end.

End Notions.

(* ================================================================== *)
(** * Properties of the log retention filter *)
(* ================================================================== *)

Import Trim.

(** ** Lines and line feeds *)


Lemma split_lines_aux_app cur l rest :
  no_LF l ->
  split_lines_aux cur (l ++ rest) = split_lines_aux (cur ++ l) rest.
Proof.
  intros H. revert cur. induction H as [|c l Hc Hl IH]; intros cur; simpl.
  - by rewrite app_nil_r.
  - destruct (N.eqb_spec c LF) as [->|_]; [done|].
    rewrite IH. by rewrite <- app_assoc.
Qed.

Lemma split_lines_aux_join cur l ls :
  no_LF l -> Forall no_LF ls ->
  split_lines_aux cur (join_lines (l :: ls)) = (cur ++ l) :: ls.
Proof.
  intros Hl Hls. revert cur l Hl. induction Hls as [|l' ls Hl' Hls IH]; intros cur l Hl.
  - simpl. rewrite <- (app_nil_r l) at 1. rewrite split_lines_aux_app by done.
    done.
  - change (join_lines (l :: l' :: ls)) with (l ++ LF :: join_lines (l' :: ls)).
    rewrite split_lines_aux_app by done.
    change (split_lines_aux (cur ++ l) (LF :: join_lines (l' :: ls)))
      with ((cur ++ l) :: split_lines_aux [] (join_lines (l' :: ls))).
    by rewrite IH.
Qed.

Lemma split_join_lines ls :
  ls <> [] -> Forall no_LF ls -> split_lines (join_lines ls) = ls.
Proof.
  destruct ls as [|l ls]; [done|]. intros _ H.
  apply Forall_cons in H as [Hl Hls].
  unfold split_lines. by rewrite split_lines_aux_join.
Qed.

Lemma split_lines_aux_no_LF cur s :
  no_LF cur -> Forall no_LF (split_lines_aux cur s).
Proof.
  revert cur. induction s as [|c r IH]; intros cur Hcur; simpl.
  - by constructor.
  - destruct (N.eqb_spec c LF) as [->|Hc].
    + constructor; [done|]. apply IH. constructor.
    + apply IH. apply Forall_app. split; [done|]. by constructor.
Qed.

Lemma split_lines_no_LF s : Forall no_LF (split_lines s).
Proof. apply split_lines_aux_no_LF. constructor. Qed.

Lemma split_lines_nonempty s : split_lines s <> [].
Proof.
  unfold split_lines. generalize (@nil N). induction s as [|c r IH]; intros cur; simpl.
  - done.
  - destruct (N.eqb c LF); [done|]. apply IH.
Qed.

(** ** Decimal digits *)

Lemma digit_range k : (48 <= ES.digit k <= 57)%N.
Proof.
  unfold ES.digit. pose proof (Z.mod_pos_bound k 10 ltac:(lia)). lia.
Qed.

Lemma is_digit_range c : is_digit c = true <-> (48 <= c <= 57)%N.
Proof. unfold is_digit. rewrite andb_true_iff, !N.leb_le. done. Qed.

Lemma is_digit_digit k : is_digit (ES.digit k) = true.
Proof. apply is_digit_range, digit_range. Qed.

Lemma is_digit_not_space c : is_digit c = true -> is_space c = false.
Proof.
  rewrite is_digit_range. intros H.
  assert (c = 48 \/ c = 49 \/ c = 50 \/ c = 51 \/ c = 52 \/ c = 53
          \/ c = 54 \/ c = 55 \/ c = 56 \/ c = 57)%N as Hc by lia.
  repeat (destruct Hc as [->|Hc]; [reflexivity|]). by subst.
Qed.

(** ** Matching the pieces of the header pattern *)

Lemma re_seq_Some p q s m1 r1 m2 r2 :
  p s = Some (m1, r1) -> q r1 = Some (m2, r2) ->
  (p >> q) s = Some (m1 ++ m2, r2).
Proof. unfold re_seq. by intros -> ->. Qed.

Lemma re_digits_app ds r :
  Forall (fun c => is_digit c = true) ds ->
  re_digits (length ds) (ds ++ r) = Some (ds, r).
Proof.
  induction 1 as [|c ds Hc Hds IH]; simpl; [done|]. by rewrite Hc, IH.
Qed.

Lemma re_lit_app l r : re_lit l (l ++ r) = Some (l, r).
Proof.
  induction l as [|a l IH]; simpl; [done|]. by rewrite N.eqb_refl, IH.
Qed.

Lemma re_spaces1_one c r :
  is_space c = false -> re_spaces1 (32%N :: c :: r) = Some ([32%N], c :: r).
Proof. intros H. unfold re_spaces1. simpl. by rewrite H. Qed.

Lemma re_digits_field n ds r : digits n ds -> re_digits n (ds ++ r) = Some (ds, r).
Proof. intros [<- H]. by apply re_digits_app. Qed.

Lemma re_timestamp_text y mo d h mi s r :
  digits 4 y -> digits 2 mo -> digits 2 d -> digits 2 h -> digits 2 mi ->
  digits 2 s ->
  re_timestamp (timestamp_text y mo d h mi s ++ r)
  = Some (timestamp_text y mo d h mi s, r).
Proof.
  intros Hy Hmo Hd Hh Hmi Hs.
  unfold re_timestamp, re_seq, timestamp_text.
  rewrite <- !app_assoc.
  rewrite (re_digits_field 4 y) by done. cbv beta iota.
  rewrite re_lit_app. cbv beta iota.
  rewrite (re_digits_field 2 mo) by done. cbv beta iota.
  rewrite re_lit_app. cbv beta iota.
  rewrite (re_digits_field 2 d) by done. cbv beta iota.
  assert (Hsp : forall x, re_spaces1 (lit " " ++ h ++ x) = Some (lit " ", h ++ x)).
  { intros x. destruct Hh as [Hlen Hall]. destruct h as [|c h]; [done|].
    apply Forall_cons in Hall as [Hc _].
    apply (re_spaces1_one c (h ++ x)). by apply is_digit_not_space. }
  rewrite Hsp. cbv beta iota.
  rewrite (re_digits_field 2 h) by done. cbv beta iota.
  rewrite re_lit_app. cbv beta iota.
  rewrite (re_digits_field 2 mi) by done. cbv beta iota.
  rewrite re_lit_app. cbv beta iota.
  rewrite (re_digits_field 2 s) by done. cbv beta iota.
  done.
Qed.

Lemma match_here_timestamp y mo d h mi s r :
  digits 4 y -> digits 2 mo -> digits 2 d -> digits 2 h -> digits 2 mi ->
  digits 2 s ->
  match_here (lit "at " ++ timestamp_text y mo d h mi s ++ lit " UTC" ++ r)
  = Some (timestamp_text y mo d h mi s).
Proof.
  intros Hy Hmo Hd Hh Hmi Hs.
  assert (exists c y', y = c :: y' /\ is_space c = false) as (c & y' & -> & Hc).
  { destruct Hy as [Hlen Hall]. destruct y as [|c y']; [done|].
    apply Forall_cons in Hall as [Hc _]. eauto using is_digit_not_space. }
  unfold match_here.
  replace ((re_lit (lit "at") >> re_spaces1)
             (lit "at " ++ timestamp_text (c :: y') mo d h mi s ++ lit " UTC" ++ r))
    with (Some (lit "at ", timestamp_text (c :: y') mo d h mi s ++ lit " UTC" ++ r)).
  2:{ symmetry.
      apply (re_seq_Some _ _ _ (lit "at") (lit " " ++ timestamp_text (c :: y') mo d h mi s ++ lit " UTC" ++ r)).
      - apply (re_lit_app (lit "at")).
      - apply (re_spaces1_one c), Hc. }
  rewrite re_timestamp_text by done.
  done.
Qed.

Lemma header_match_skip c s :
  match_here (c :: s) = None -> header_match (c :: s) = header_match s.
Proof. intros H. simpl. by rewrite H. Qed.

Lemma match_here_first c s : c <> 97%N -> match_here (c :: s) = None.
Proof.
  intros H. unfold match_here, re_seq.
  change (lit "at") with [97; 116]%N. cbn [re_lit].
  destruct (N.eqb_spec 97 c) as [<-|_]; done.
Qed.

Lemma header_match_no_a p s :
  Forall (fun c => c <> 97%N) p -> header_match (p ++ s) = header_match s.
Proof.
  induction 1 as [|c p Hc Hp IH]; [done|].
  rewrite <- app_comm_cons, header_match_skip; [done|]. by apply match_here_first.
Qed.

(** ** The two maintenance lines *)

Lemma digits_pad2 n : digits 2 (ES.pad2 n).
Proof. split; [done|]. repeat constructor; apply is_digit_digit. Qed.

Lemma digits_pad4 n : digits 4 (ES.pad4 n).
Proof. split; [done|]. repeat constructor; apply is_digit_digit. Qed.

Lemma replace_first_ne a b c r :
  c <> a -> replace_first a b (c :: r) = c :: replace_first a b r.
Proof. intros H. simpl. by destruct (N.eqb_spec c a). Qed.

Lemma replace_first_digits a b n ds r :
  digits n ds -> is_digit a = false ->
  replace_first a b (ds ++ r) = ds ++ replace_first a b r.
Proof.
  intros [_ H] Ha. induction H as [|c ds Hc Hds IH]; [done|].
  rewrite <- !app_comm_cons, replace_first_ne, IH; [done|]. congruence.
Qed.

Lemma formattedDate_fields now :
  0 <= ES.YearFromTime now <= 9999 ->
  formattedDate now
  = timestamp_text (ES.pad4 (ES.YearFromTime now))
      (ES.pad2 (ES.MonthFromTime now + 1)) (ES.pad2 (ES.DateFromTime now))
      (ES.pad2 (ES.HourFromTime now)) (ES.pad2 (ES.MinFromTime now))
      (ES.pad2 (ES.SecFromTime now)).
Proof.
  intros Hy. unfold formattedDate, ES.toISOString, ES.isoYear, timestamp_text.
  replace ((0 <=? ES.YearFromTime now) && (ES.YearFromTime now <=? 9999))
    with true by (symmetry; apply andb_true_iff; lia).
  rewrite (replace_first_digits _ _ 4) by (done || apply digits_pad4).
  change (lit "-" ++ ?x) with (45%N :: x).
  rewrite (replace_first_ne 84 32 45) by done.
  rewrite (replace_first_digits _ _ 2) by (done || apply digits_pad2).
  change (lit "-" ++ ?x) with (45%N :: x).
  rewrite (replace_first_ne 84 32 45) by done.
  rewrite (replace_first_digits _ _ 2) by (done || apply digits_pad2).
  reflexivity.
Qed.

Lemma header_match_trailer1 now :
  0 <= ES.YearFromTime now <= 9999 ->
  header_match (trailer1 now) = Some (formattedDate now).
Proof.
  intros Hy. unfold trailer1. rewrite formattedDate_fields by done.
  set (ts := timestamp_text _ _ _ _ _ _).
  change (lit "Heartbeat log maintenance successful at " ++ ts ++ lit " UTC")
    with (lit "Heartbeat log maintenance successful "
            ++ (lit "at " ++ ts ++ lit " UTC" ++ [])).
  set (rest := lit "at " ++ ts ++ lit " UTC" ++ []).
  assert (Hrest : header_match rest = Some ts).
  { subst rest. change (lit "at " ++ ?x) with (97%N :: 116%N :: 32%N :: x).
    cbn [header_match].
    change (97%N :: 116%N :: 32%N :: ?x) with (lit "at " ++ x).
    subst ts. rewrite match_here_timestamp;
      [done | apply digits_pad4 | apply digits_pad2 ..]. }
  clearbody rest ts. clear Hy.
  let p := eval vm_compute in (lit "Heartbeat log maintenance successful ") in
  change (lit "Heartbeat log maintenance successful " ++ rest) with (p ++ rest).
  cbn [app].
  repeat (rewrite header_match_skip by reflexivity).
  exact Hrest.
Qed.


Lemma lit_string_of_uint d :
  Forall numeral_char (lit (NilEmpty.string_of_uint d)).
Proof.
  induction d; simpl; constructor; try done; by left.
Qed.

Lemma show_Z_chars n : Forall numeral_char (show_Z n).
Proof.
  unfold show_Z, NilZero.string_of_int.
  destruct (Z.to_int n) as [d|d].
  - unfold NilZero.string_of_uint. destruct d; try apply lit_string_of_uint.
    repeat constructor.
  - change (lit (String ?a ?s)) with (45%N :: lit s).
    constructor; [by right|].
    unfold NilZero.string_of_uint. destruct d; try apply lit_string_of_uint.
    repeat constructor.
Qed.

Lemma numeral_char_no_LF l : Forall numeral_char l -> no_LF l.
Proof.
  intros Hl. eapply Forall_impl; [exact Hl|]. intros c [H| ->]; [|done].
  apply is_digit_range in H. unfold LF. lia.
Qed.

Lemma numeral_char_no_a l :
  Forall numeral_char l -> Forall (fun c => c <> 97%N) l.
Proof.
  intros Hl. eapply Forall_impl; [exact Hl|]. intros c [H| ->]; [|done].
  apply is_digit_range in H. lia.
Qed.

Lemma header_match_trailer2 n : header_match (trailer2 n) = None.
Proof.
  unfold trailer2.
  let p := eval vm_compute in (lit "Removed entries older than ") in
  change (lit "Removed entries older than ") with p.
  cbn [app].
  repeat (rewrite header_match_skip by reflexivity).
  rewrite header_match_no_a by apply numeral_char_no_a, show_Z_chars.
  reflexivity.
Qed.

Lemma no_LF_digits n ds : digits n ds -> no_LF ds.
Proof.
  intros [_ H]. eapply Forall_impl; [exact H|]. intros c Hc. simpl in Hc.
  apply is_digit_range in Hc. unfold LF. lia.
Qed.

Lemma no_LF_replace_first a b s :
  b <> LF -> no_LF s -> no_LF (replace_first a b s).
Proof.
  intros Hb. induction 1 as [|c s Hc Hs IH]; simpl; [constructor|].
  destruct (N.eqb c a); by constructor.
Qed.

Lemma no_LF_toISOString t : no_LF (ES.toISOString t).
Proof.
  assert (Hd : forall k, ES.digit k <> LF).
  { intros k. pose proof (digit_range k). unfold LF. lia. }
  unfold ES.toISOString, ES.isoYear, no_LF.
  repeat case_match; rewrite ?Forall_app;
    repeat split; repeat constructor; try apply Hd; done.
Qed.

Lemma no_LF_trailer1 now : no_LF (trailer1 now).
Proof.
  unfold trailer1, no_LF. rewrite !Forall_app. split; [|split].
  - vm_compute. repeat constructor; done.
  - apply Forall_take, no_LF_replace_first; [done|apply no_LF_toISOString].
  - vm_compute. repeat constructor; done.
Qed.

Lemma no_LF_trailer2 n : no_LF (trailer2 n).
Proof.
  unfold trailer2, no_LF. rewrite !Forall_app. split; [|split].
  - vm_compute. repeat constructor; done.
  - apply numeral_char_no_LF, show_Z_chars.
  - vm_compute. repeat constructor; done.
Qed.

(** ** The loop *)

Section FilterFacts.
Variable LocalTZA : Z -> bool -> Z.
Variable Date_parse : jsstring -> option Z.

Abbreviation scan' := (scan Date_parse).
Abbreviation process' := (process_line Date_parse).

Lemma MonthFromTime_range t : 0 <= ES.MonthFromTime t <= 11.
Proof. unfold ES.MonthFromTime. repeat case_match; lia. Qed.

Lemma MakeDay_of_fields t dt :
  ES.MakeDay (ES.YearFromTime t) (ES.MonthFromTime t) dt
  = ES.Day t + (dt - ES.DateFromTime t).
Proof.
  pose proof (MonthFromTime_range t) as Hm.
  unfold ES.MakeDay, ES.DateFromTime, ES.DayWithinYear, ES.InLeapYear.
  rewrite Z.div_small, Z.mod_small, Z.add_0_r by lia.
  lia.
Qed.

Lemma cutoffTimestamp_days_ago now daysToKeep :
  cutoffTimestamp LocalTZA now daysToKeep
  = ES.TimeClip (UTC LocalTZA (LocalTime LocalTZA now - daysToKeep * ES.msPerDay)).
Proof.
  unfold cutoffTimestamp, setDate, getDate. cbv zeta.
  rewrite MakeDay_of_fields. f_equal. f_equal.
  unfold ES.MakeDate, ES.Day, ES.TimeWithinDay, ES.msPerDay.
  Z.div_mod_to_equations. lia.
Qed.

Lemma scan_snoc cutoff pre line :
  scan' cutoff (pre ++ [line]) = process' cutoff (scan' cutoff pre) line.
Proof. unfold scan. by rewrite fold_left_app. Qed.

Lemma snoc_neq {A} (l : list A) x : l ++ [x] <> l.
Proof.
  intros H. apply (f_equal length) in H. rewrite length_app in H. simpl in H. lia.
Qed.

(** C1, amended. Let the cutoff be the same local wall-clock time
    [daysToKeep] days before [now]. As long as that instant is within the
    range of Date (at most 8.64e15 ms from the epoch), a line with a
    header timestamp that parses to the instant [t] is pushed to the
    output exactly when [t >= cutoff]; a timestamp equal to the cutoff is
    kept. When that instant is outside the range of Date, the cutoff is
    NaN, the comparison [t >= cutoff] is false in JavaScript and the line
    is dropped, whatever [t] is. No sign condition on [daysToKeep] is
    needed. *)
Theorem header_line_kept_iff_not_before_cutoff
    (now daysToKeep : Z) (pre : list jsstring) (line ts : jsstring) (t : Z) :
  header_match line = Some ts ->
  Date_parse (ts ++ lit " UTC") = Some t ->
  let cutoff := cutoffTimestamp LocalTZA now daysToKeep in
  let before := scan' cutoff pre in
  let after := scan' cutoff (pre ++ [line]) in
  cutoff = ES.TimeClip (UTC LocalTZA (LocalTime LocalTZA now - daysToKeep * ES.msPerDay))
  /\ (output after = output before ++ [line]
      <-> ES.num_ge (Some t) cutoff = true)
  /\ (output after = output before \/ output after = output before ++ [line])
  /\ keepCurrentBlock after = ES.num_ge (Some t) cutoff
  /\ (forall c, cutoff = Some c ->
        (output after = output before ++ [line] <-> c <= t))
  /\ (let days_ago :=
        UTC LocalTZA (LocalTime LocalTZA now - daysToKeep * ES.msPerDay) in
      (Z.abs days_ago <= ES.maxTime ->
         cutoff = Some days_ago
         /\ (output after = output before ++ [line] <-> days_ago <= t)
         /\ (output after = output before <-> t < days_ago))
      /\ (ES.maxTime < Z.abs days_ago ->
          cutoff = None
          /\ output after = output before
          /\ keepCurrentBlock after = false)).
Proof.
  intros Hm Hp cutoff before after.
  assert (Hcut : cutoff = ES.TimeClip (UTC LocalTZA
                   (LocalTime LocalTZA now - daysToKeep * ES.msPerDay)))
    by apply cutoffTimestamp_days_ago.
  clearbody cutoff.
  split; [exact Hcut|].
  assert (Hstep : after = process' cutoff before line) by apply scan_snoc.
  unfold process_line in Hstep. rewrite Hm, Hp in Hstep.
  assert (Hd : (output after = output before ++ [line]
      <-> ES.num_ge (Some t) cutoff = true)).
  { destruct (ES.num_ge (Some t) cutoff) eqn:E; rewrite Hstep; simpl.
    - done.
    - split; [|done]. intros H. symmetry in H. by apply snoc_neq in H. }
  assert (Hk : keepCurrentBlock after = ES.num_ge (Some t) cutoff)
    by (destruct (ES.num_ge (Some t) cutoff); by rewrite Hstep).
  assert (Hno : ES.num_ge (Some t) cutoff = false ->
                output after = output before)
    by (intros E; by rewrite Hstep, E).
  split; [exact Hd|]. split; [|split; [exact Hk|split]].
  - destruct (ES.num_ge (Some t) cutoff); rewrite Hstep; simpl; auto.
  - intros c Hc. rewrite Hd, Hc. simpl. apply Z.leb_le.
  - intros days_ago. fold days_ago in Hcut. clearbody days_ago.
    unfold ES.TimeClip in Hcut. split; intros Hrange.
    + rewrite (proj2 (Z.leb_le _ _) Hrange) in Hcut.
      split; [exact Hcut|]. rewrite Hcut in Hd, Hno. simpl in Hd, Hno.
      split; [by rewrite Hd, Z.leb_le|]. split.
      * intros Hsame. destruct (Z.lt_ge_cases t days_ago) as [Hlt|Hge]; [done|].
        exfalso. apply (snoc_neq (output before) line).
        rewrite <- Hsame at 2. symmetry. apply Hd, Z.leb_le. lia.
      * intros Hlt. apply Hno, Z.leb_gt, Hlt.
    + rewrite (proj2 (Z.leb_gt _ _) Hrange) in Hcut.
      split; [exact Hcut|]. rewrite Hcut in Hk, Hno. simpl in Hk, Hno.
      split; [by apply Hno | exact Hk].
Qed.

Lemma process_line_decision cutoff st line :
  process' cutoff st line
  = match header_decision Date_parse cutoff line with
    | Some true =>
        {| currentTimestamp := default [] (header_match line);
           currentTimestampMs :=
             Date_parse (default [] (header_match line) ++ lit " UTC");
           keepCurrentBlock := true; output := output st ++ [line] |}
    | Some false =>
        {| currentTimestamp := default [] (header_match line);
           currentTimestampMs :=
             Date_parse (default [] (header_match line) ++ lit " UTC");
           keepCurrentBlock := false; output := output st |}
    | None =>
        if keepCurrentBlock st then
          {| currentTimestamp := currentTimestamp st;
             currentTimestampMs := currentTimestampMs st;
             keepCurrentBlock := true; output := output st ++ [line] |}
        else st
    end.
Proof.
  unfold process_line, header_decision.
  destruct (header_match line) as [ts|]; simpl.
  - by destruct (ES.num_ge _ _).
  - by destruct (keepCurrentBlock st) eqn:E.
Qed.

Lemma keep_after_scan cutoff pre :
  keepCurrentBlock (scan' cutoff pre) = last_header_kept Date_parse cutoff pre.
Proof.
  induction pre as [|line pre IH] using rev_ind; [done|].
  rewrite scan_snoc, process_line_decision.
  unfold last_header_kept in *. rewrite omap_app. simpl.
  destruct (header_decision Date_parse cutoff line) as [[]|] eqn:E; simpl.
  - by rewrite last_snoc.
  - by rewrite last_snoc.
  - rewrite app_nil_r, <- IH. by destruct (keepCurrentBlock _) eqn:K.
Qed.

Lemma fold_process_kept cutoff lines st :
  output (fold_left (process' cutoff) lines st)
  = output st ++ kept_lines Date_parse cutoff (keepCurrentBlock st) lines.
Proof.
  revert st. induction lines as [|line rest IH]; intros st; simpl.
  - by rewrite app_nil_r.
  - rewrite IH, process_line_decision.
    destruct (header_decision Date_parse cutoff line) as [[]|]; simpl;
      [by rewrite <- ?app_assoc .. |].
    destruct (keepCurrentBlock st) eqn:K; simpl; [by rewrite <- app_assoc|].
    by rewrite K.
Qed.

Lemma output_scan cutoff lines :
  output (scan' cutoff lines) = kept_lines Date_parse cutoff false lines.
Proof. unfold scan. by rewrite fold_process_kept. Qed.

Lemma kept_lines_sublist cutoff kb lines :
  sublist (kept_lines Date_parse cutoff kb lines) lines.
Proof.
  revert kb. induction lines as [|line rest IH]; intros kb; simpl; [constructor|].
  destruct (header_decision Date_parse cutoff line) as [[]|];
    [by constructor | by constructor |].
  destruct kb; by constructor.
Qed.

Lemma no_header_no_decision cutoff pre :
  Forall (fun l => header_match l = None) pre ->
  omap (header_decision Date_parse cutoff) pre = [].
Proof.
  induction 1 as [|l pre' Hl Hall IH]; [done|]. simpl.
  unfold header_decision at 1. by rewrite Hl.
Qed.

(** C2. A line that does not match the header pattern is pushed exactly
    when the most recent header line before it was kept, which is what
    [keepCurrentBlock] holds; with no header line before it, it is
    dropped, since [keepCurrentBlock] starts false. The line leaves
    [keepCurrentBlock] as it was. *)
Theorem continuation_line_follows_its_header
    (cutoff : option Z) (pre : list jsstring) (line : jsstring) :
  header_match line = None ->
  let before := scan' cutoff pre in
  let after := scan' cutoff (pre ++ [line]) in
  keepCurrentBlock before = last_header_kept Date_parse cutoff pre
  /\ (output after = output before ++ [line]
      <-> last_header_kept Date_parse cutoff pre = true)
  /\ (last_header_kept Date_parse cutoff pre = false ->
      output after = output before)
  /\ (Forall (fun l => header_match l = None) pre ->
      output after = output before)
  /\ keepCurrentBlock after = keepCurrentBlock before
  /\ keepCurrentBlock initial = false.
Proof.
  intros Hm before after.
  assert (Hk : keepCurrentBlock before = last_header_kept Date_parse cutoff pre)
    by apply keep_after_scan.
  assert (Hstep : after = process' cutoff before line) by apply scan_snoc.
  unfold process_line in Hstep. rewrite Hm, Hk in Hstep.
  assert (Hdrop : last_header_kept Date_parse cutoff pre = false ->
                  output after = output before).
  { intros E. by rewrite Hstep, E. }
  split; [exact Hk|]. split; [|split; [exact Hdrop|split; [|split]]].
  - destruct (last_header_kept Date_parse cutoff pre) eqn:E; rewrite Hstep; simpl.
    + done.
    + split; [|done]. intros H. symmetry in H. by apply snoc_neq in H.
  - intros Hall. apply Hdrop. unfold last_header_kept.
    by rewrite no_header_no_decision.
  - rewrite Hstep. destruct (last_header_kept _ _ _) eqn:E; simpl; congruence.
  - done.
Qed.

(** C3 (amended). A line that matches the header pattern and whose
    timestamp does not parse (NaN) is dropped and sets [keepCurrentBlock]
    to false, so a continuation line after it is dropped too; the loop
    goes on (it is a total function: nothing is thrown). *)
Theorem unparseable_header_is_expired
    (cutoff : option Z) (pre : list jsstring) (line ts : jsstring) :
  header_match line = Some ts ->
  Date_parse (ts ++ lit " UTC") = None ->
  let before := scan' cutoff pre in
  let after := scan' cutoff (pre ++ [line]) in
  output after = output before
  /\ keepCurrentBlock after = false
  /\ currentTimestampMs after = None
  /\ forall next, header_match next = None ->
       output (scan' cutoff (pre ++ [line; next])) = output before.
Proof.
  intros Hm Hp before after.
  assert (Hstep : after = process' cutoff before line) by apply scan_snoc.
  unfold process_line in Hstep. rewrite Hm, Hp in Hstep. simpl in Hstep.
  split; [by rewrite Hstep|]. split; [by rewrite Hstep|]. split; [by rewrite Hstep|].
  intros next Hn.
  change [line; next] with ([line] ++ [next]). rewrite app_assoc, scan_snoc.
  fold after. unfold process_line. rewrite Hn, Hstep. done.
Qed.

Lemma retained_lines_are_a_subsequence (cutoff : option Z)
    (lines : list jsstring) :
  sublist (output (scan' cutoff lines)) lines.
Proof. rewrite output_scan. apply kept_lines_sublist. Qed.
End FilterFacts.

Section FileFacts.
Variable LocalTZA : Z -> bool -> Z.
Variable Date_parse : jsstring -> option Z.

Abbreviation scan'' := (scan Date_parse).
Abbreviation trimmedLines' := (trimmedLines LocalTZA Date_parse).
Abbreviation trimmedText' := (trimmedText LocalTZA Date_parse).
Abbreviation trimHeartbeatLog' := (trimHeartbeatLog LocalTZA Date_parse).
Abbreviation trimHeartbeatLog_states' :=
  (trimHeartbeatLog_states LocalTZA Date_parse).

Lemma no_LF_trimmedLines now n content :
  Forall no_LF (trimmedLines' now n content).
Proof.
  unfold trimmedLines. apply Forall_app. split.
  - apply Forall_forall. intros l Hl.
    pose proof (split_lines_no_LF content) as Hall.
    rewrite Forall_forall in Hall. apply Hall.
    eapply elem_of_sublist; [exact Hl|].
    apply retained_lines_are_a_subsequence.
  - constructor; [apply no_LF_trailer1|].
    constructor; [apply no_LF_trailer2|constructor].
Qed.

Lemma split_trimmedText now n content :
  split_lines (trimmedText' now n content) = trimmedLines' now n content.
Proof.
  unfold trimmedText. apply split_join_lines; [|apply no_LF_trimmedLines].
  unfold trimmedLines. by destruct (output _).
Qed.

Lemma tempFile_fresh config : tempFile config <> heartbeat_log config.
Proof.
  unfold tempFile. intros H. apply (f_equal length) in H.
  rewrite length_app in H. simpl in H. lia.
Qed.

Lemma trimHeartbeatLog_log config now fs content :
  fs !! heartbeat_log config = Some content ->
  trimHeartbeatLog' config now fs !! heartbeat_log config
  = Some (trimmedText' now (log_days_to_keep config) content).
Proof.
  intros H. unfold trimHeartbeatLog, renameSync. rewrite H.
  rewrite lookup_insert_eq. apply lookup_insert_eq.
Qed.

(** C8. Whatever the log holds, the rewritten log ends with exactly the
    two maintenance lines, after the retained lines: the first reports
    success at the current UTC time to the second, the other the number
    of days applied. With nothing retained (an empty log among others)
    the log is just these two lines. *)
Theorem trailer_pair_always_appended config now fs content :
  fs !! heartbeat_log config = Some content ->
  let n := log_days_to_keep config in
  let kept :=
    output (scan'' (cutoffTimestamp LocalTZA now n) (split_lines content)) in
  exists text,
    trimHeartbeatLog' config now fs !! heartbeat_log config = Some text
    /\ split_lines text = kept ++ [trailer1 now; trailer2 n]
    /\ (kept = [] -> text = trailer1 now ++ [LF] ++ trailer2 n)
    /\ (content = [] -> kept = [])
    /\ trailer1 now
       = lit "Heartbeat log maintenance successful at " ++ formattedDate now
           ++ lit " UTC"
    /\ trailer2 n
       = lit "Removed entries older than " ++ show_Z n ++ lit " days"
    /\ (0 <= ES.YearFromTime now <= 9999 ->
        formattedDate now
        = timestamp_text (ES.pad4 (ES.YearFromTime now))
            (ES.pad2 (ES.MonthFromTime now + 1))
            (ES.pad2 (ES.DateFromTime now)) (ES.pad2 (ES.HourFromTime now))
            (ES.pad2 (ES.MinFromTime now)) (ES.pad2 (ES.SecFromTime now))).
Proof.
  intros Hlog n kept.
  exists (trimmedText' now n content).
  split; [by apply trimHeartbeatLog_log|].
  split; [apply split_trimmedText|].
  split; [|split; [|split; [done|split; [done|apply formattedDate_fields]]]].
  - intros Hk. unfold trimmedText, trimmedLines. fold n. fold kept. by rewrite Hk.
  - intros ->. done.
Qed.

(** C10. The lines of the rewritten log are a subsequence of the lines of
    the old log (same order, nothing duplicated, nothing altered)
    followed by the two maintenance lines. *)
Theorem output_is_input_subsequence_plus_trailers config now fs content :
  fs !! heartbeat_log config = Some content ->
  exists text kept,
    trimHeartbeatLog' config now fs !! heartbeat_log config = Some text
    /\ split_lines text
       = kept ++ [trailer1 now; trailer2 (log_days_to_keep config)]
    /\ sublist kept (split_lines content).
Proof.
  intros Hlog.
  exists (trimmedText' now (log_days_to_keep config) content),
    (output (scan'' (cutoffTimestamp LocalTZA now (log_days_to_keep config))
               (split_lines content))).
  split; [by apply trimHeartbeatLog_log|].
  split; [apply split_trimmedText|].
  apply retained_lines_are_a_subsequence.
Qed.

(** C9. The new text is written to the temporary file while the log
    keeps its old text, and the last step renames the temporary file over
    the log: in every file-system state of the run the log holds either
    all of the old text or all of the new text. *)
Theorem log_is_replaced_by_rename config now fs content :
  fs !! heartbeat_log config = Some content ->
  let new := trimmedText' now (log_days_to_keep config) content in
  let final := trimHeartbeatLog' config now fs in
  exists writing,
    trimHeartbeatLog_states' config now fs = writing ++ [final]
    /\ (forall s, s ∈ writing -> s !! heartbeat_log config = Some content)
    /\ (exists w, last writing = Some w /\ w !! tempFile config = Some new)
    /\ final !! heartbeat_log config = Some new
    /\ final !! tempFile config = None
    /\ (forall s, s ∈ trimHeartbeatLog_states' config now fs ->
          s !! heartbeat_log config = Some content
          \/ s !! heartbeat_log config = Some new).
Proof.
  intros Hlog new final.
  pose proof (tempFile_fresh config) as Hfresh.
  set (written := writeFileSync_states (tempFile config) new fs).
  assert (Hstates : trimHeartbeatLog_states' config now fs
                    = (fs :: written) ++ [final]).
  { unfold trimHeartbeatLog_states, final, trimHeartbeatLog. by rewrite Hlog. }
  assert (Hold : forall s, s ∈ fs :: written ->
                   s !! heartbeat_log config = Some content).
  { intros s [->|Hs]%elem_of_cons; [done|].
    unfold written, writeFileSync_states in Hs.
    apply list_elem_of_fmap in Hs as (k & -> & _).
    by rewrite lookup_insert_ne. }
  assert (Hnew : final !! heartbeat_log config = Some new)
    by by apply trimHeartbeatLog_log.
  exists (fs :: written). split; [exact Hstates|]. split; [exact Hold|].
  split; [|split; [exact Hnew|split]].
  - exists (<[tempFile config := new]> fs). split; [|apply lookup_insert_eq].
    unfold written, writeFileSync_states.
    rewrite seq_S, fmap_app. simpl.
    rewrite app_comm_cons, last_snoc. by rewrite firstn_all.
  - unfold final, trimHeartbeatLog, renameSync. rewrite Hlog.
    rewrite lookup_insert_eq, lookup_insert_ne by done.
    apply lookup_delete_eq.
  - intros s Hs. rewrite Hstates in Hs.
    apply elem_of_app in Hs as [Hs|Hs]; [left; by apply Hold|].
    apply list_elem_of_singleton in Hs as ->. by right.
Qed.

End FileFacts.

(** ** The calendar *)

Lemma year_of_day_spec d :
  ES.DayFromYear (ES.year_of_day d) <= d
  < ES.DayFromYear (ES.year_of_day d + 1).
Proof.
  unfold ES.year_of_day. cbv zeta.
  set (y0 := 1970 + 400 * d / 146097).
  destruct (Z.ltb_spec d (ES.DayFromYear y0)) as [H1|H1];
    [|destruct (Z.leb_spec (ES.DayFromYear (y0 + 1)) d) as [H2|H2]];
    [| |lia];
    unfold ES.DayFromYear in *; subst y0; Z.div_mod_to_equations; lia.
Qed.

Lemma DayFromYear_succ y :
  ES.DayFromYear (y + 1) = ES.DayFromYear y + ES.DaysInYear y.
Proof.
  unfold ES.DayFromYear, ES.DaysInYear.
  repeat match goal with
         | |- context [?a =? ?b] => destruct (Z.eqb_spec a b)
         end; simpl; Z.div_mod_to_equations; lia.
Qed.

Lemma DaysInYear_cases y : ES.DaysInYear y = 365 \/ ES.DaysInYear y = 366.
Proof. unfold ES.DaysInYear. repeat case_match; auto. Qed.

Lemma DayWithinYear_range t :
  0 <= ES.DayWithinYear t < ES.DaysInYear (ES.YearFromTime t).
Proof.
  unfold ES.DayWithinYear, ES.YearFromTime.
  pose proof (year_of_day_spec (ES.Day t)) as H.
  rewrite DayFromYear_succ in H. lia.
Qed.

Lemma DateFromTime_range t : 1 <= ES.DateFromTime t <= 31.
Proof.
  pose proof (DayWithinYear_range t) as H.
  unfold ES.DateFromTime, ES.MonthFromTime, ES.InLeapYear in *.
  set (dwy := ES.DayWithinYear t) in *.
  destruct (DaysInYear_cases (ES.YearFromTime t)) as [E|E]; rewrite E in *;
    simpl;
    repeat match goal with
           | |- context [?a <? ?b] => destruct (Z.ltb_spec a b)
           end; simpl; lia.
Qed.

(** ** V8 reads back the timestamps the filter writes *)

Lemma digit_val_digit k : digit_val (ES.digit k) = k mod 10.
Proof.
  unfold digit_val, ES.digit.
  pose proof (Z.mod_pos_bound k 10 ltac:(lia)). lia.
Qed.

Lemma number_of_pad2 n : 0 <= n < 100 -> number_of (ES.pad2 n) 0 = n.
Proof.
  intros H. unfold ES.pad2. simpl. rewrite !digit_val_digit.
  Z.div_mod_to_equations. lia.
Qed.

Lemma number_of_pad4 n : 0 <= n < 10000 -> number_of (ES.pad4 n) 0 = n.
Proof.
  intros H. unfold ES.pad4. simpl. rewrite !digit_val_digit.
  Z.div_mod_to_equations. lia.
Qed.

Lemma span_space_digits n ds r :
  (0 < n)%nat -> digits n ds -> span_space (ds ++ r) = ([], ds ++ r).
Proof.
  intros Hn [Hlen Hall]. destruct ds as [|c ds]; [simpl in Hlen; lia|].
  apply Forall_cons in Hall as [Hc _]. simpl.
  by rewrite (is_digit_not_space c Hc).
Qed.

Lemma v8_parse_timestamp y mo d h mi s :
  100 <= y <= 9999 -> 1 <= mo <= 12 -> 1 <= d <= 31 ->
  0 <= h <= 23 -> 0 <= mi <= 59 -> 0 <= s <= 59 ->
  v8_parse (timestamp_text (ES.pad4 y) (ES.pad2 mo) (ES.pad2 d) (ES.pad2 h)
              (ES.pad2 mi) (ES.pad2 s) ++ lit " UTC")
  = ES.TimeClip (ES.MakeDate (ES.MakeDay y (mo - 1) d) (ES.MakeTime h mi s 0)).
Proof.
  intros Hy Hmo Hd Hh Hmi Hs.
  unfold v8_parse, timestamp_text, re_seq.
  rewrite <- !app_assoc.
  rewrite (re_digits_field 4 (ES.pad4 y)) by apply digits_pad4. cbv beta iota.
  rewrite re_lit_app. cbv beta iota.
  rewrite (re_digits_field 2 (ES.pad2 mo)) by apply digits_pad2. cbv beta iota.
  change (lit "-" ++ ES.pad2 mo) with (45%N :: ES.pad2 mo). cbv beta iota.
  rewrite re_lit_app. cbv beta iota.
  rewrite (re_digits_field 2 (ES.pad2 d)) by apply digits_pad2. cbv beta iota.
  change (lit "-" ++ ES.pad2 d) with (45%N :: ES.pad2 d). cbv beta iota.
  assert (Hsp : forall x, re_spaces1 (lit " " ++ ES.pad2 h ++ x)
                          = Some (lit " ", ES.pad2 h ++ x)).
  { intros x. apply (re_spaces1_one (ES.digit (h / 10))).
    apply is_digit_not_space, is_digit_digit. }
  rewrite Hsp. cbv beta iota.
  rewrite (re_digits_field 2 (ES.pad2 h)) by apply digits_pad2. cbv beta iota.
  rewrite re_lit_app. cbv beta iota.
  rewrite (re_digits_field 2 (ES.pad2 mi)) by apply digits_pad2. cbv beta iota.
  change (lit ":" ++ ES.pad2 mi) with (58%N :: ES.pad2 mi). cbv beta iota.
  rewrite re_lit_app. cbv beta iota.
  rewrite (re_digits_field 2 (ES.pad2 s)) by apply digits_pad2. cbv beta iota.
  change (lit ":" ++ ES.pad2 s) with (58%N :: ES.pad2 s). cbv beta iota.
  rewrite bool_decide_eq_true_2 by done.
  change (span_space (lit " " ++ ES.pad2 h))
    with (let '(w, r') := span_space (ES.pad2 h ++ []) in (32%N :: w, r')).
  rewrite (span_space_digits 2) by (lia || apply digits_pad2).
  cbv beta iota zeta. rewrite app_nil_r. cbn [snd].
  rewrite number_of_pad4, !number_of_pad2 by lia.
  replace ((100 <=? y) && (1 <=? mo) && (mo <=? 12) && (1 <=? d) && (d <=? 31)
           && ((h <=? 23) && (mi <=? 59) && (s <=? 59)
               || (h =? 24) && (mi =? 0) && (s =? 0)))
    with true; [done|].
  symmetry. rewrite !andb_true_iff, orb_true_iff, !andb_true_iff, !Z.leb_le.
  repeat split; try lia; left; repeat split; lia.
Qed.

Lemma v8_parse_formattedDate now :
  100 <= ES.YearFromTime now <= 9999 ->
  v8_parse (formattedDate now ++ lit " UTC") = Some (1000 * (now / 1000)).
Proof.
  intros Hy. rewrite formattedDate_fields by lia.
  pose proof (MonthFromTime_range now) as Hm.
  pose proof (DateFromTime_range now) as Hd.
  rewrite v8_parse_timestamp;
    [| done | lia | done
     | unfold ES.HourFromTime; pose proof (Z.mod_pos_bound (now / ES.msPerHour) 24); lia
     | unfold ES.MinFromTime; pose proof (Z.mod_pos_bound (now / ES.msPerMinute) 60); lia
     | unfold ES.SecFromTime; pose proof (Z.mod_pos_bound (now / ES.msPerSecond) 60); lia ].
  replace (ES.MonthFromTime now + 1 - 1) with (ES.MonthFromTime now) by lia.
  rewrite MakeDay_of_fields.
  assert (Hv : ES.MakeDate (ES.Day now + (ES.DateFromTime now - ES.DateFromTime now))
                 (ES.MakeTime (ES.HourFromTime now) (ES.MinFromTime now)
                    (ES.SecFromTime now) 0)
               = 1000 * (now / 1000)).
  { unfold ES.MakeDate, ES.MakeTime, ES.Day, ES.HourFromTime, ES.MinFromTime,
      ES.SecFromTime, ES.msPerDay, ES.msPerHour, ES.msPerMinute, ES.msPerSecond.
    Z.div_mod_to_equations. lia. }
  rewrite Hv. unfold ES.TimeClip.
  assert (Hb : Z.abs (1000 * (now / 1000)) <= ES.maxTime).
  { unfold ES.YearFromTime in Hy.
    pose proof (year_of_day_spec (ES.Day now)) as Hs.
    assert (ES.DayFromYear 0 <= ES.Day now < ES.DayFromYear 10000) as Hday.
    { split.
      - etransitivity; [|apply Hs].
        unfold ES.DayFromYear. Z.div_mod_to_equations. lia.
      - eapply Z.lt_le_trans; [apply Hs|].
        unfold ES.DayFromYear. Z.div_mod_to_equations. lia. }
    change (ES.DayFromYear 0) with (-719528) in Hday.
    change (ES.DayFromYear 10000) with 2932897 in Hday.
    unfold ES.Day, ES.msPerDay, ES.maxTime in *.
    Z.div_mod_to_equations. lia. }
  by apply Z.leb_le in Hb as ->.
Qed.

(** ** Running the filter again *)

Lemma join_lines_snoc ls l :
  ls <> [] -> join_lines (ls ++ [l]) = join_lines ls ++ LF :: l.
Proof.
  induction ls as [|a ls IH]; [done|]. intros _.
  destruct ls as [|b ls]; [done|].
  change (join_lines ((a :: b :: ls) ++ [l]))
    with (a ++ LF :: join_lines ((b :: ls) ++ [l])).
  rewrite IH by done.
  change (join_lines (a :: b :: ls)) with (a ++ LF :: join_lines (b :: ls)).
  by rewrite <- app_assoc.
Qed.

Section Rerun.
Variable LocalTZA : Z -> bool -> Z.
Variable Date_parse : jsstring -> option Z.

Abbreviation kept_lines' := (kept_lines Date_parse).
Abbreviation header_decision' := (header_decision Date_parse).

Lemma header_decision_None cut1 cut2 line :
  header_decision' cut1 line = None -> header_decision' cut2 line = None.
Proof. unfold header_decision. by destruct (header_match line). Qed.

(** Filtering the retained lines again, with a cutoff that still admits
    every header line retained the first time, changes nothing. *)
Lemma kept_lines_again cut1 cut2 kb kb' lines :
  (forall line, line ∈ lines ->
     header_decision' cut1 line = Some true ->
     header_decision' cut2 line = Some true) ->
  (kb = true -> kb' = true) ->
  kept_lines' cut2 kb' (kept_lines' cut1 kb lines) = kept_lines' cut1 kb lines.
Proof.
  revert kb kb'.
  induction lines as [|line rest IH]; intros kb kb' Hstill Hkb; [done|].
  assert (Hrest : forall l, l ∈ rest ->
            header_decision' cut1 l = Some true ->
            header_decision' cut2 l = Some true).
  { intros l Hl. apply Hstill. by apply list_elem_of_further. }
  simpl. destruct (header_decision' cut1 line) as [[]|] eqn:E.
  - simpl. rewrite (Hstill line (list_elem_of_here _ _) E). f_equal.
    by apply IH.
  - by apply IH.
  - destruct kb.
    + simpl. rewrite (header_decision_None _ cut2 _ E), (Hkb eq_refl).
      f_equal. by apply IH.
    + by apply IH.
Qed.

Lemma kept_lines_app cutoff kb l1 l2 :
  exists kb',
    kept_lines' cutoff kb (l1 ++ l2)
    = kept_lines' cutoff kb l1 ++ kept_lines' cutoff kb' l2.
Proof.
  revert kb. induction l1 as [|line rest IH]; intros kb; simpl; [by exists kb|].
  destruct (header_decision' cutoff line) as [[]|].
  - destruct (IH true) as [kb' ->]. by exists kb'.
  - apply IH.
  - destruct kb; [|apply IH]. destruct (IH true) as [kb' ->]. by exists kb'.
Qed.

Lemma rerun_lines (now1 now2 daysToKeep : Z) (content : jsstring)
    (cutoff2 stamp : Z) :
  0 <= ES.YearFromTime now1 <= 9999 ->
  cutoffTimestamp LocalTZA now2 daysToKeep = Some cutoff2 ->
  Date_parse (formattedDate now1 ++ lit " UTC") = Some stamp ->
  cutoff2 <= stamp ->
  (forall line ts t,
     line ∈ split_lines content ->
     header_match line = Some ts ->
     Date_parse (ts ++ lit " UTC") = Some t ->
     ES.num_ge (Some t) (cutoffTimestamp LocalTZA now1 daysToKeep) = true ->
     cutoff2 <= t) ->
  let first := trimmedLines LocalTZA Date_parse now1 daysToKeep content in
  trimmedLines LocalTZA Date_parse now2 daysToKeep (join_lines first)
  = first ++ [trailer1 now2; trailer2 daysToKeep].
Proof.
  intros Hyear Hcut Hstamp Hle Hstill first.
  assert (Hfirst : first
                   = kept_lines' (cutoffTimestamp LocalTZA now1 daysToKeep)
                       false (split_lines content)
                     ++ [trailer1 now1; trailer2 daysToKeep]).
  { unfold first, trimmedLines. by rewrite output_scan. }
  assert (Hsplit : split_lines (join_lines first) = first)
    by apply split_trimmedText.
  clearbody first.
  set (cut1 := cutoffTimestamp LocalTZA now1 daysToKeep) in *.
  clearbody cut1.
  set (t1 := trailer1 now1) in *. set (t2 := trailer2 daysToKeep) in *.
  set (kept := kept_lines' cut1 false (split_lines content)) in *.
  assert (Ht1 : header_decision' (Some cutoff2) t1 = Some true).
  { unfold header_decision, t1. rewrite header_match_trailer1 by done.
    rewrite Hstamp. simpl. f_equal. by apply Z.leb_le. }
  assert (Ht2 : header_decision' (Some cutoff2) t2 = None).
  { unfold header_decision, t2. by rewrite header_match_trailer2. }
  unfold trimmedLines. rewrite Hcut, output_scan, Hsplit. f_equal.
  rewrite Hfirst.
  destruct (kept_lines_app (Some cutoff2) false kept [t1; t2]) as [kb' ->].
  unfold kept at 1. rewrite kept_lines_again; [|clear kb'|done].
  - f_equal. simpl. by rewrite Ht1, Ht2.
  - intros line Hline. unfold header_decision.
    destruct (header_match line) as [ts|] eqn:Hm; [|done].
    destruct (Date_parse (ts ++ lit " UTC")) as [t|] eqn:Hp; [|done].
    intros Hge. simpl. f_equal. apply Z.leb_le.
    eapply Hstill; [exact Hline | exact Hm | exact Hp | congruence].
Qed.

Lemma rerun_text (now1 now2 daysToKeep : Z) (content : jsstring)
    (cutoff2 stamp : Z) :
  0 <= ES.YearFromTime now1 <= 9999 ->
  cutoffTimestamp LocalTZA now2 daysToKeep = Some cutoff2 ->
  Date_parse (formattedDate now1 ++ lit " UTC") = Some stamp ->
  cutoff2 <= stamp ->
  (forall line ts t,
     line ∈ split_lines content ->
     header_match line = Some ts ->
     Date_parse (ts ++ lit " UTC") = Some t ->
     ES.num_ge (Some t) (cutoffTimestamp LocalTZA now1 daysToKeep) = true ->
     cutoff2 <= t) ->
  let first := trimmedText LocalTZA Date_parse now1 daysToKeep content in
  let second := trimmedText LocalTZA Date_parse now2 daysToKeep first in
  second = first ++ [LF] ++ trailer1 now2 ++ [LF] ++ trailer2 daysToKeep
  /\ split_lines second
     = split_lines first ++ [trailer1 now2; trailer2 daysToKeep].
Proof.
  intros Hyear Hcut Hstamp Hle Hstill first second.
  pose proof (rerun_lines now1 now2 daysToKeep content cutoff2 stamp
                Hyear Hcut Hstamp Hle Hstill) as Hlines.
  cbv zeta in Hlines.
  pose proof (split_trimmedText LocalTZA Date_parse now1 daysToKeep content)
    as Hsplit1.
  pose proof (split_trimmedText LocalTZA Date_parse now2 daysToKeep first)
    as Hsplit2.
  fold first in Hsplit1. fold second in Hsplit2.
  assert (Hsecond : second
                    = join_lines (split_lines first
                                    ++ [trailer1 now2; trailer2 daysToKeep])).
  { rewrite Hsplit1. rewrite <- Hlines. reflexivity. }
  assert (Hone : first = join_lines (split_lines first)).
  { rewrite Hsplit1. reflexivity. }
  split.
  - rewrite Hsecond.
    change (split_lines first ++ [trailer1 now2; trailer2 daysToKeep])
      with (split_lines first ++ [trailer1 now2] ++ [trailer2 daysToKeep]).
    rewrite app_assoc, !join_lines_snoc;
      [|apply split_lines_nonempty
       |intros H; apply app_eq_nil in H as [H _];
        by apply split_lines_nonempty in H].
    rewrite <- Hone. by rewrite <- app_assoc.
  - rewrite Hsplit2, Hsplit1. exact Hlines.
Qed.

(** C4 (amended). When the second run comes so soon that nothing the
    first run wrote has expired by then (no header line it kept, and not
    its own maintenance line, whose timestamp is the first run's time cut
    to the second, is older than the second run's cutoff), the second run
    writes the first run's text unchanged, followed by exactly one more
    pair of maintenance lines. *)
Theorem rerun_keeps_first_run_and_adds_one_trailer_pair
    (now1 now2 daysToKeep : Z) (content : jsstring) (cutoff2 stamp : Z) :
  0 <= ES.YearFromTime now1 <= 9999 ->
  cutoffTimestamp LocalTZA now2 daysToKeep = Some cutoff2 ->
  Date_parse (formattedDate now1 ++ lit " UTC") = Some stamp ->
  cutoff2 <= stamp ->
  (forall line ts t,
     line ∈ split_lines content ->
     header_match line = Some ts ->
     Date_parse (ts ++ lit " UTC") = Some t ->
     ES.num_ge (Some t) (cutoffTimestamp LocalTZA now1 daysToKeep) = true ->
     cutoff2 <= t) ->
  let first := trimmedText LocalTZA Date_parse now1 daysToKeep content in
  let second := trimmedText LocalTZA Date_parse now2 daysToKeep first in
  second = first ++ [LF] ++ trailer1 now2 ++ [LF] ++ trailer2 daysToKeep
  /\ split_lines second
     = split_lines first ++ [trailer1 now2; trailer2 daysToKeep].
Proof. apply rerun_text. Qed.

End Rerun.

(** On V8 in a zone with a fixed offset, with at least one day of
    retention, two runs on the same clock reading: the hypotheses above
    always hold. *)
Lemma rerun_on_v8_same_clock (offset now daysToKeep : Z) (content : jsstring) :
  100 <= ES.YearFromTime now <= 9999 ->
  1 <= daysToKeep ->
  Z.abs (now - daysToKeep * ES.msPerDay) <= ES.maxTime ->
  let zone := fun (_ : Z) (_ : bool) => offset in
  let first := trimmedText zone v8_parse now daysToKeep content in
  let second := trimmedText zone v8_parse now daysToKeep first in
  second = first ++ [LF] ++ trailer1 now ++ [LF] ++ trailer2 daysToKeep.
Proof.
  intros Hyear Hdays Hvalid zone first second.
  assert (Hcut : cutoffTimestamp zone now daysToKeep
                 = Some (now - daysToKeep * ES.msPerDay)).
  { rewrite cutoffTimestamp_days_ago. unfold UTC, LocalTime, zone, ES.TimeClip.
    replace (now + offset - daysToKeep * ES.msPerDay - offset)
      with (now - daysToKeep * ES.msPerDay) by lia.
    by apply Z.leb_le in Hvalid as ->. }
  assert (Hyear' : 0 <= ES.YearFromTime now <= 9999) by lia.
  refine (proj1 (rerun_text zone v8_parse now now daysToKeep content
                   (now - daysToKeep * ES.msPerDay) (1000 * (now / 1000))
                   Hyear' Hcut (v8_parse_formattedDate now Hyear) _ _)).
  - unfold ES.msPerDay. Z.div_mod_to_equations. lia.
  - intros line ts t _ _ _. rewrite Hcut. simpl. apply Z.leb_le.
Qed.

(* ================================================================== *)
(** * Properties of the heartbeat reporter *)
(* ================================================================== *)

Import Heartbeat.

Section ReporterFacts.
Variable ERROR_LOG_PATTERN : jsstring -> option (jsstring * jsstring * jsstring).
Variable localeCompare : jsstring -> jsstring -> Z.
Variable Buffer_toString : list N -> jsstring.
Variable network : list Event -> Request -> HttpOutcome.
Variable SystemInfo : Type.
Variable info_timestamp : SystemInfo -> jsstring.
Variable serialize : SystemInfo -> jsstring.
Variable getSystemInfo : M SystemInfo.
Variable inspect : jsstring -> jsstring.

Abbreviation checkErrorLog' :=
  (checkErrorLog ERROR_LOG_PATTERN localeCompare Buffer_toString).
Abbreviation compareLogs' := (compareLogs ERROR_LOG_PATTERN localeCompare).

(** ** The error-log scanner *)

Lemma sort_insert_Permutation cmp x l : sort_insert cmp x l ≡ₚ x :: l.
Proof.
  induction l as [|y r IH]; simpl; [done|].
  destruct (cmp x y <=? 0); [done|]. rewrite IH. apply Permutation_swap.
Qed.

Lemma sort_Permutation cmp l : sort cmp l ≡ₚ l.
Proof.
  induction l as [|x l IH]; simpl; [done|].
  unfold sort in *. simpl. by rewrite sort_insert_Permutation, IH.
Qed.

Lemma take_file_size (bytes : list N) :
  take (Z.to_nat (Z.min 500 (Z.of_nat (length bytes)))) bytes = take 500 bytes.
Proof.
  destruct (Z.le_gt_cases 500 (Z.of_nat (length bytes))) as [H|H].
  - rewrite Z.min_l by done. done.
  - rewrite Z.min_r, Nat2Z.id by lia.
    rewrite firstn_all. symmetry. apply take_ge. lia.
Qed.

Lemma lookup_entry_listed name entries e :
  lookup_entry name entries = Some e -> (name, e) ∈ entries.
Proof.
  unfold lookup_entry. intros H.
  destruct (list_find _ entries) as [[i [n e']]|] eqn:F; [|done].
  simpl in H. injection H as ->.
  apply list_find_Some in F as (Hi & Hn & _). simpl in Hn. subst n.
  by eapply list_elem_of_lookup_2.
Qed.

(** C5. With no file name matching the pattern the scanner reports no
    error, no latest log and no content. With a selected matching file
    (the head of the sorted matches, a regular file) it reports that
    name; an empty file gives no error and no content, a file with bytes
    gives an error and the decoded first 500 bytes at most, followed by
    [...] exactly when the file is larger than 500 bytes. Whenever no
    error is reported the content is null. *)
Theorem checkErrorLog_classification (entries : list (jsstring * Entry)) :
  let status := checkErrorLog' (Listing entries) in
  let matching :=
    filter (fun file => is_Some (ERROR_LOG_PATTERN file)) (fst <$> entries) in
  (matching = [] ->
     has_error status = false /\ latest_log status = None
     /\ log_content status = None)
  /\ (forall name bytes,
        head (sort compareLogs' matching) = Some name ->
        lookup_entry name entries = Some (Regular bytes) ->
        name ∈ matching
        /\ is_Some (ERROR_LOG_PATTERN name)
        /\ (name, Regular bytes) ∈ entries
        /\ latest_log status = Some name
        /\ (length bytes = 0%nat ->
              has_error status = false /\ log_content status = None)
        /\ ((0 < length bytes)%nat ->
              has_error status = true
              /\ log_content status
                 = Some (Buffer_toString (take 500 bytes)
                           ++ (if 500 <? Z.of_nat (length bytes)
                               then lit "..." else []))))
  /\ (forall dir,
        has_error (checkErrorLog' dir) = false ->
        log_content (checkErrorLog' dir) = None).
Proof.
  intros status matching. split; [|split].
  - intros Hm. unfold status, checkErrorLog. fold matching. by rewrite Hm.
  - intros name bytes Hhead Hentry.
    assert (Hin : name ∈ matching).
    { rewrite <- (sort_Permutation compareLogs' matching).
      destruct (sort compareLogs' matching); [done|].
      injection Hhead as ->. apply list_elem_of_here. }
    split; [exact Hin|].
    split; [by apply list_elem_of_filter in Hin as [? _]|].
    split; [by apply lookup_entry_listed|].
    unfold status, checkErrorLog. fold matching.
    destruct (sort compareLogs' matching) as [|first rest]; [done|].
    injection Hhead as ->. rewrite Hentry. cbv zeta. simpl.
    split; [done|]. split.
    + intros Hz. rewrite Hz. done.
    + intros Hp.
      replace (0 <? Z.of_nat (length bytes)) with true
        by (symmetry; apply Z.ltb_lt; lia).
      split; [done|]. by rewrite take_file_size.
  - intros dir. unfold checkErrorLog, failed.
    repeat case_match; simpl; congruence.
Qed.


(** ** The upsert *)

Abbreviation updateGithubFile' := (updateGithubFile network SystemInfo serialize).
Abbreviation fetchSha' := (fetchSha network).
Abbreviation retryLoop' := (retryLoop network SystemInfo serialize).
Abbreviation main' :=
  (main network SystemInfo info_timestamp serialize getSystemInfo inspect).
Abbreviation createRequest' := (createRequest SystemInfo serialize).
Abbreviation updateRequest' := (updateRequest SystemInfo serialize).
Abbreviation updateData' := (updateData SystemInfo serialize).

Lemma fetchSha_run tr :
  exists evs,
    fetchSha' tr = (Ok (fetched_sha (network tr getRequest)), tr ++ evs)
    /\ requests_of evs = [getRequest] /\ sleeps_of evs = [].
Proof.
  unfold fetchSha, try_catch, mbind, M_bind, bind, httpsRequest, fetched_sha.
  destruct (network tr getRequest) as [e|r].
  - eexists [_; _]. unfold console, emit, mret, M_ret, ret. simpl.
    by rewrite <- app_assoc.
  - destruct (statusCode r =? 200); [destruct (response_data r)|].
    + eexists [_; _]. unfold console, emit, mret, M_ret, ret, throw. simpl.
      by rewrite <- app_assoc.
    + by exists [EvRequest getRequest].
    + by exists [EvRequest getRequest].
Qed.

Lemma updateGithubFile_run fileContent tr :
  exists evs1 evs2,
    let put := {| method := PUT;
                  data := Some (updateData'
                                  (fetched_sha (network tr getRequest))
                                  fileContent) |} in
    updateGithubFile' fileContent tr
    = (Ok (write_succeeded (network (tr ++ evs1) put)),
       tr ++ evs1 ++ EvRequest put :: evs2)
    /\ requests_of evs1 = [getRequest] /\ sleeps_of evs1 = []
    /\ requests_of evs2 = [] /\ sleeps_of evs2 = [].
Proof.
  destruct (fetchSha_run tr) as (evs1 & Hf & Hr & Hs).
  exists evs1.
  unfold updateGithubFile, try_catch, mbind, M_bind, bind. rewrite Hf.
  unfold httpsRequest.
  destruct (network (tr ++ evs1) _) as [e|r] eqn:E.
  - eexists [_]. unfold console, emit, mret, M_ret, ret. simpl.
    rewrite <- !app_assoc. done.
  - exists []. unfold mret, M_ret, ret. simpl. rewrite <- !app_assoc. done.
Qed.

Lemma requests_of_app a b : requests_of (a ++ b) = requests_of a ++ requests_of b.
Proof. apply omap_app. Qed.

Lemma sleeps_of_app a b : sleeps_of (a ++ b) = sleeps_of a ++ sleeps_of b.
Proof. apply omap_app. Qed.

Abbreviation write_outcomes' := (write_outcomes network).

Lemma write_outcomes_app hist a b :
  write_outcomes' hist (a ++ b)
  = write_outcomes' hist a ++ write_outcomes' (hist ++ a) b.
Proof.
  revert hist. induction a as [|ev a IH]; intros hist.
  - by rewrite app_nil_r.
  - simpl. rewrite !IH, <- !app_assoc. simpl.
    destruct ev as [r| |]; [destruct (is_put r)|..]; done.
Qed.

Lemma write_outcomes_no_put hist evs :
  Forall (fun r => is_put r = false) (requests_of evs) ->
  write_outcomes' hist evs = [].
Proof.
  revert hist. induction evs as [|ev evs IH]; intros hist H; [done|].
  destruct ev as [r| |]; simpl in *; [|by apply IH..].
  apply Forall_cons in H as [-> H]. by apply IH.
Qed.

(** C6. The upsert sends the fetch and then one write. When the fetch is
    rejected or answers with a status other than 200 (404 on the first
    run), the write carries no [sha] and creates the document; when it
    answers 200 with a [sha] that passes the test [if (sha)] (every
    non-empty string does), the write carries that [sha]. The result of
    the upsert is decided by the write alone: a failed fetch is not an
    error of the upsert. *)
Theorem upsert_attaches_sha_only_when_fetched
    (fileContent : SystemInfo) (tr : list Event) :
  exists evs trPut put,
    updateGithubFile' fileContent tr
    = (Ok (write_succeeded (network trPut put)), tr ++ evs)
    /\ requests_of evs = [getRequest; put]
    /\ (forall e, network tr getRequest = Rejected e ->
          put = createRequest' fileContent)
    /\ (forall r, network tr getRequest = Resolved r -> statusCode r <> 200 ->
          put = createRequest' fileContent)
    /\ (forall r v,
          network tr getRequest = Resolved r -> statusCode r = 200 ->
          response_data r = DataWith v -> truthy v = true ->
          put = updateRequest' v fileContent)
    /\ (forall r X,
          network tr getRequest = Resolved r -> statusCode r = 200 ->
          response_data r = DataWith (JString X) -> X <> [] ->
          put = updateRequest' (JString X) fileContent).
Proof.
  destruct (updateGithubFile_run fileContent tr)
    as (evs1 & evs2 & Hrun & Hr1 & _ & Hr2 & _).
  cbv zeta in Hrun.
  eexists (evs1 ++ EvRequest _ :: evs2), (tr ++ evs1), _.
  split; [exact Hrun|]. split.
  { rewrite requests_of_app, Hr1.
    change (requests_of (EvRequest ?r :: ?l)) with (r :: requests_of l).
    by rewrite Hr2. }
  assert (Hupdate : forall r v,
            network tr getRequest = Resolved r -> statusCode r = 200 ->
            response_data r = DataWith v -> truthy v = true ->
            {| method := PUT;
               data := Some (updateData'
                               (fetched_sha (network tr getRequest))
                               fileContent) |}
            = updateRequest' v fileContent).
  { intros r v Hres Hcode Hdata Hv. unfold updateRequest, updateData.
    unfold fetched_sha. rewrite Hres, Hcode, Hdata. simpl. by rewrite Hv. }
  split; [|split; [|split; [exact Hupdate|]]].
  - intros e Hres. by rewrite Hres.
  - intros r Hres Hcode. rewrite Hres. unfold createRequest, updateData.
    simpl. by destruct (Z.eqb_spec (statusCode r) 200).
  - intros r X Hres Hcode Hdata HX. apply (Hupdate r); try done.
    simpl. by rewrite bool_decide_eq_false_2.
Qed.

(** ** The retry loop *)

Lemma write_outcomes_attempt hist evs1 put evs2 :
  is_put put = true ->
  requests_of evs1 = [getRequest] -> requests_of evs2 = [] ->
  write_outcomes' hist (evs1 ++ EvRequest put :: evs2)
  = [write_succeeded (network (hist ++ evs1) put)].
Proof.
  intros Hput Hr1 Hr2.
  rewrite write_outcomes_app, write_outcomes_no_put
    by (rewrite Hr1; by repeat constructor).
  simpl. rewrite Hput, write_outcomes_no_put by (by rewrite Hr2). done.
Qed.

Lemma retryLoop_run (remaining : nat) (i : Z) (systemInfo : SystemInfo)
    (tr : list Event) :
  exists (success : bool) (evs : list Event) (k : nat),
    retryLoop' remaining i systemInfo tr = (Ok success, tr ++ evs)
    /\ (k <= remaining)%nat
    /\ (success = true ->
        (1 <= k)%nat
        /\ write_outcomes' tr evs = replicate (k - 1) false ++ [true]
        /\ sleeps_of evs = backoffs i (k - 1))
    /\ (success = false ->
        k = remaining
        /\ write_outcomes' tr evs = replicate remaining false
        /\ sleeps_of evs = backoffs i remaining).
Proof.
  revert i tr. induction remaining as [|rem IH]; intros i tr.
  - exists false, [], 0%nat. simpl. unfold mret, M_ret, ret.
    rewrite app_nil_r. repeat split; done.
  - destruct (updateGithubFile_run systemInfo tr)
      as (evs1 & evs2 & Hrun & Hr1 & Hs1 & Hr2 & Hs2).
    cbv zeta in Hrun.
    set (put := {| method := PUT; data := _ |}) in Hrun.
    assert (Hw : forall rest,
               write_outcomes' tr ((evs1 ++ EvRequest put :: evs2) ++ rest)
               = write_succeeded (network (tr ++ evs1) put)
                   :: write_outcomes' (tr ++ evs1 ++ EvRequest put :: evs2) rest).
    { intros rest. rewrite write_outcomes_app.
      by rewrite write_outcomes_attempt. }
    assert (Hs : sleeps_of (evs1 ++ EvRequest put :: evs2) = []).
    { rewrite sleeps_of_app, Hs1. exact Hs2. }
    cbn [retryLoop]. unfold mbind, M_bind, bind at 1. rewrite Hrun.
    destruct (write_succeeded _) eqn:Hok.
    + exists true, (evs1 ++ EvRequest put :: evs2), 1%nat.
      unfold mret, M_ret, ret.
      split; [done|]. split; [lia|]. split; [|done]. intros _.
      split; [done|]. split; [|done].
      rewrite <- (app_nil_r (evs1 ++ _)), Hw, ?Hok. done.
    + unfold bind, console, sleep, emit.
      set (warning := EvConsole Warn _).
      destruct (IH (i + 1) ((tr ++ evs1 ++ EvRequest put :: evs2)
                  ++ [warning] ++ [EvSleep (i * 2000)]))
        as (success & evs & k & Hloop & Hle & Htrue & Hfalse).
      rewrite app_assoc in Hloop.
      exists success,
        ((evs1 ++ EvRequest put :: evs2)
           ++ [warning] ++ [EvSleep (i * 2000)] ++ evs), (S k).
      split.
      { rewrite Hloop. f_equal. by rewrite <- !app_assoc. }
      rewrite Hw, ?Hok.
      rewrite (sleeps_of_app (evs1 ++ EvRequest put :: evs2)), Hs.
      change (sleeps_of ([warning] ++ [EvSleep (i * 2000)] ++ evs))
        with (i * 2000 :: sleeps_of evs).
      change (write_outcomes' ?h ([warning] ++ [EvSleep (i * 2000)] ++ evs))
        with (write_outcomes' ((h ++ [warning]) ++ [EvSleep (i * 2000)]) evs).
      rewrite <- (app_assoc _ [warning]).
      split; [lia|]. split.
      * intros Ht. destruct (Htrue Ht) as (Hk1 & Hout & Hsl). split; [lia|].
        rewrite Hout, Hsl. destruct k as [|k']; [lia|]. simpl.
        rewrite Nat.sub_0_r. split; [done|]. unfold backoffs.
        rewrite (seqZ_cons i) by lia. simpl. do 3 f_equal; lia.
      * intros Hf. destruct (Hfalse Hf) as (-> & Hout & Hsl). split; [done|].
        rewrite Hout, Hsl. split; [done|]. unfold backoffs.
        rewrite (seqZ_cons i) by lia. simpl. do 3 f_equal; lia.
Qed.

Lemma main_run tr : exists tr', main' tr = (Ok tt, tr').
Proof.
  unfold main, try_catch, mbind, M_bind, bind.
  destruct (getSystemInfo tr) as [[systemInfo|e] tr1].
  - destruct (retryLoop_run (Z.to_nat attempts) 1 systemInfo tr1)
      as (success & evs & k & -> & _).
    unfold console, emit. destruct success; simpl; eauto.
  - unfold console, emit. eauto.
Qed.

(** *** The trace of the loop, run by run *)

Lemma failed_runs_cons tr i run rest :
  tr ++ failed_runs i (run :: rest)
  = (tr ++ run ++ pause i) ++ failed_runs (i + 1) rest.
Proof. cbn [failed_runs]. by rewrite <- !app_assoc. Qed.

Lemma length_backoffs i k : length (backoffs i k) = k.
Proof. unfold backoffs. rewrite length_fmap, length_seqZ. lia. Qed.

Lemma backoffs_S i k : backoffs i (S k) = i * 2000 :: backoffs (i + 1) k.
Proof.
  unfold backoffs. rewrite (seqZ_cons i) by lia. simpl. do 3 f_equal; lia.
Qed.

Lemma sleeps_of_failed_runs i runs :
  Forall (fun run => sleeps_of run = []) runs ->
  sleeps_of (failed_runs i runs) = backoffs i (length runs).
Proof.
  intros H. revert i. induction H as [|run runs Hrun _ IH]; intros i; [done|].
  cbn [failed_runs length]. rewrite sleeps_of_app, Hrun, backoffs_S.
  change (sleeps_of (pause i ++ failed_runs (i + 1) runs))
    with (i * 2000 :: sleeps_of (failed_runs (i + 1) runs)).
  by rewrite IH.
Qed.

(** One run of the upsert: the fetch, then the write, and no pause. *)
Lemma updateGithubFile_attempt fileContent tr :
  exists (b : bool) (run : list Event) (put : Request),
    updateGithubFile' fileContent tr = (Ok b, tr ++ run)
    /\ requests_of run = [getRequest; put] /\ is_put put = true
    /\ sleeps_of run = [].
Proof.
  destruct (updateGithubFile_run fileContent tr)
    as (evs1 & evs2 & Hrun & Hr1 & Hs1 & Hr2 & Hs2).
  cbv zeta in Hrun. set (put := {| method := PUT; data := _ |}) in Hrun.
  exists (write_succeeded (network (tr ++ evs1) put)),
    (evs1 ++ EvRequest put :: evs2), put.
  split; [exact Hrun|]. split; [|split; [reflexivity|]].
  - rewrite requests_of_app, Hr1. simpl. by rewrite Hr2.
  - rewrite sleeps_of_app, Hs1. exact Hs2.
Qed.

Lemma retryLoop_trace (remaining : nat) (i : Z) (systemInfo : SystemInfo)
    (tr : list Event) :
  exists (success : bool) (failed : list (list Event)) (final : list Event),
    retryLoop' remaining i systemInfo tr
    = (Ok success, tr ++ failed_runs i failed ++ final)
    /\ (forall j run, failed !! j = Some run ->
          updateGithubFile' systemInfo (tr ++ failed_runs i (take j failed))
          = (Ok false, (tr ++ failed_runs i (take j failed)) ++ run)
          /\ (exists put, requests_of run = [getRequest; put]
                          /\ is_put put = true)
          /\ sleeps_of run = [])
    /\ (if success
        then updateGithubFile' systemInfo (tr ++ failed_runs i failed)
             = (Ok true, (tr ++ failed_runs i failed) ++ final)
             /\ (exists put, requests_of final = [getRequest; put]
                             /\ is_put put = true)
             /\ sleeps_of final = []
             /\ (length failed < remaining)%nat
        else final = [] /\ length failed = remaining).
Proof.
  revert i tr. induction remaining as [|rem IH]; intros i tr.
  - exists false, [], []. cbn [retryLoop failed_runs]. unfold mret, M_ret, ret.
    rewrite !app_nil_r. split; [done|]. split; [|done].
    intros j run Hj. by rewrite lookup_nil in Hj.
  - destruct (updateGithubFile_attempt systemInfo tr)
      as (b & run & put & Hrun & Hreq & Hput & Hsl).
    cbn [retryLoop]. unfold mbind, M_bind, bind at 1. rewrite Hrun.
    destruct b.
    + exists true, [], run. unfold mret, M_ret, ret. cbn [failed_runs].
      rewrite !app_nil_r. cbn [app]. split; [done|]. split.
      { intros j r Hj. by rewrite lookup_nil in Hj. }
      split; [exact Hrun|]. split; [by exists put|]. split; [exact Hsl|].
      cbn [length]. lia.
    + unfold bind, console, sleep, emit.
      replace ((tr ++ run)
                 ++ [EvConsole Warn
                       (lit "GitHub update failed (attempt " ++ show_Z i
                          ++ lit "/" ++ show_Z attempts
                          ++ lit "). Retrying in " ++ show_Z (i * 2000)
                          ++ lit " ms...")])
        with (tr ++ run ++ [EvConsole Warn
                       (lit "GitHub update failed (attempt " ++ show_Z i
                          ++ lit "/" ++ show_Z attempts
                          ++ lit "). Retrying in " ++ show_Z (i * 2000)
                          ++ lit " ms...")])
        by (by rewrite <- app_assoc).
      replace ((tr ++ run ++ [EvConsole Warn
                       (lit "GitHub update failed (attempt " ++ show_Z i
                          ++ lit "/" ++ show_Z attempts
                          ++ lit "). Retrying in " ++ show_Z (i * 2000)
                          ++ lit " ms...")])
                 ++ [EvSleep (i * 2000)])
        with (tr ++ run ++ pause i)
        by (unfold pause; by rewrite <- !app_assoc).
      destruct (IH (i + 1) (tr ++ run ++ pause i))
        as (success & failed & final & Hloop & Hfailed & Hfinal).
      exists success, (run :: failed), final.
      replace (tr ++ failed_runs i (run :: failed) ++ final)
        with ((tr ++ run ++ pause i) ++ failed_runs (i + 1) failed ++ final)
        by (cbn [failed_runs]; by rewrite <- !app_assoc).
      split; [exact Hloop|]. split.
      * intros [|j] r Hj.
        -- cbn [take failed_runs]. rewrite app_nil_r.
           cbn [lookup list_lookup] in Hj. injection Hj as <-.
           split; [exact Hrun|]. split; [by exists put | exact Hsl].
        -- cbn [take]. rewrite failed_runs_cons. by apply Hfailed.
      * destruct success.
        -- destruct Hfinal as (H1 & H2 & H3 & H4).
           rewrite failed_runs_cons.
           split; [exact H1|]. split; [exact H2|]. split; [exact H3|].
           cbn [length]. lia.
        -- destruct Hfinal as [-> Hlen]. split; [done|].
           cbn [length]. by rewrite Hlen.
Qed.

(** What [main] does with the loop: it runs it once the record is
    collected, prints the closing line, and after a failed loop the
    closing message; an error thrown while collecting is printed and
    nothing else is done. *)
Lemma main_trace tr :
  match getSystemInfo tr with
  | (Ok systemInfo, tr1) =>
      exists (success : bool) (evs : list Event),
        retryLoop' (Z.to_nat attempts) 1 systemInfo tr1
        = (Ok success, tr1 ++ evs)
        /\ main' tr
           = (Ok tt,
              tr1 ++ evs
                ++ EvConsole Log
                     (lit "Heartbeat update "
                        ++ (if success then lit "successful" else lit "failed")
                        ++ lit " at " ++ info_timestamp systemInfo
                        ++ lit " UTC")
                :: (if success then []
                    else [EvConsole Error
                            (lit "Failed to update GitHub file. Check your token and network connection.")]))
  | (Thrown e, tr1) =>
      main' tr
      = (Ok tt,
         tr1 ++ [EvConsole Error
                   (lit "Error in heartbeat process: " ++ inspect e)])
  end.
Proof.
  unfold main, try_catch, mbind, M_bind, bind.
  destruct (getSystemInfo tr) as [[systemInfo|e] tr1]; [|reflexivity].
  destruct (retryLoop_run (Z.to_nat attempts) 1 systemInfo tr1)
    as (success & evs & k & Hloop & _).
  exists success, evs. split; [exact Hloop|]. rewrite Hloop.
  unfold console, emit, mret, M_ret, ret.
  destruct success; cbn [negb fst snd]; by rewrite <- !app_assoc.
Qed.

(** C7. The publisher runs the whole fetch-then-write sequence at most
    three times. The events of the loop are the events of the runs that
    failed, each a run of the upsert (one fetch, then one write) started
    where the one before it and its pause ended and each followed by the
    warning and a pause of [attempt * 2000] ms, and then the events of
    the run that succeeded, if one did. A run fails when its write fails
    (a network error, or a status other than 200 and 201, so every
    non-2xx status). The upsert always returns a boolean. [main] runs
    this loop after collecting the record, prints the closing line and
    returns normally, also when all three runs failed or collecting
    threw. (After the third failure the loop still pauses 6000 ms before
    it gives up.) *)
Theorem publisher_retries_three_times_and_never_raises
    (systemInfo : SystemInfo) (tr : list Event) :
  (exists (b : bool) tr', updateGithubFile' systemInfo tr = (Ok b, tr'))
  /\ (forall e, write_succeeded (Rejected e) = false)
  /\ (forall r, ~ (200 <= statusCode r <= 299) ->
               write_succeeded (Resolved r) = false)
  /\ (exists (success : bool) evs (k : nat)
             (failed : list (list Event)) (final : list Event),
        retryLoop' (Z.to_nat attempts) 1 systemInfo tr = (Ok success, tr ++ evs)
        /\ (1 <= k <= 3)%nat
        /\ length (write_outcomes' tr evs) = k
        /\ (success = true ->
            write_outcomes' tr evs = replicate (k - 1) false ++ [true]
            /\ sleeps_of evs = (fun a => a * 2000) <$> seqZ 1 (Z.of_nat k - 1))
        /\ (success = false ->
            write_outcomes' tr evs = [false; false; false]
            /\ sleeps_of evs = [2000; 4000; 6000])
        /\ evs = failed_runs 1 failed ++ final
        /\ length failed = (if success then k - 1 else k)%nat
        /\ (forall j run, failed !! j = Some run ->
              updateGithubFile' systemInfo
                (tr ++ failed_runs 1 (take j failed))
              = (Ok false, (tr ++ failed_runs 1 (take j failed)) ++ run)
              /\ exists put, requests_of run = [getRequest; put]
                             /\ is_put put = true)
        /\ (if success
            then updateGithubFile' systemInfo (tr ++ failed_runs 1 failed)
                 = (Ok true, (tr ++ failed_runs 1 failed) ++ final)
                 /\ exists put, requests_of final = [getRequest; put]
                                /\ is_put put = true
            else final = []))
  /\ (exists tr', main' tr = (Ok tt, tr'))
  /\ (forall tr0,
        match getSystemInfo tr0 with
        | (Ok info, tr1) =>
            exists (success : bool) (evs : list Event),
              retryLoop' (Z.to_nat attempts) 1 info tr1
              = (Ok success, tr1 ++ evs)
              /\ main' tr0
                 = (Ok tt,
                    tr1 ++ evs
                      ++ EvConsole Log
                           (lit "Heartbeat update "
                              ++ (if success then lit "successful"
                                  else lit "failed")
                              ++ lit " at " ++ info_timestamp info
                              ++ lit " UTC")
                      :: (if success then []
                          else [EvConsole Error
                                  (lit "Failed to update GitHub file. Check your token and network connection.")]))
        | (Thrown e, tr1) =>
            main' tr0
            = (Ok tt,
               tr1 ++ [EvConsole Error
                         (lit "Error in heartbeat process: " ++ inspect e)])
        end).
Proof.
  split; [|split; [done|split; [|split; [|split;
    [apply main_run | apply main_trace]]]]].
  - destruct (updateGithubFile_run systemInfo tr) as (evs1 & evs2 & Hrun & _).
    eauto.
  - intros r Hr. simpl.
    destruct (Z.eqb_spec (statusCode r) 200), (Z.eqb_spec (statusCode r) 201);
      simpl; lia.
  - destruct (retryLoop_run (Z.to_nat attempts) 1 systemInfo tr)
      as (success & evs & k & Hloop & Hle & Htrue & Hfalse).
    destruct (retryLoop_trace (Z.to_nat attempts) 1 systemInfo tr)
      as (success' & failed & final & Htrace & Hfailed & Hfinal).
    change (Z.to_nat attempts) with 3%nat in *.
    assert (Hsame : success' = success
                    /\ evs = failed_runs 1 failed ++ final).
    { rewrite Hloop in Htrace. clear - Htrace.
      assert (H1 : Ok success = Ok success') by congruence.
      assert (H2 : tr ++ evs = tr ++ failed_runs 1 failed ++ final)
        by congruence.
      split; [congruence|]. by apply app_inv_head in H2. }
    destruct Hsame as [-> Hevs].
    assert (Hquiet : Forall (fun run => sleeps_of run = []) failed).
    { apply Forall_lookup. intros j run Hj.
      by destruct (Hfailed j run Hj) as (_ & _ & ?). }
    assert (Hruns : forall j run, failed !! j = Some run ->
              updateGithubFile' systemInfo
                (tr ++ failed_runs 1 (take j failed))
              = (Ok false, (tr ++ failed_runs 1 (take j failed)) ++ run)
              /\ exists put, requests_of run = [getRequest; put]
                             /\ is_put put = true).
    { intros j run Hj. destruct (Hfailed j run Hj) as (H1 & H2 & _). done. }
    exists success, evs, k, failed, final. split; [exact Hloop|].
    destruct success.
    + destruct (Htrue eq_refl) as (Hk & Hout & Hsl).
      destruct Hfinal as (Hf1 & Hf2 & Hf3 & Hf4).
      split; [lia|]. split.
      { rewrite Hout, length_app, length_replicate. simpl. lia. }
      split.
      { intros _. split; [done|].
        rewrite Hsl. unfold backoffs. do 2 f_equal. lia. }
      split; [done|]. split; [exact Hevs|]. split.
      { apply (f_equal (@length Z)) in Hsl.
        rewrite Hevs, sleeps_of_app, Hf3, app_nil_r,
          sleeps_of_failed_runs, !length_backoffs in Hsl by done.
        exact Hsl. }
      split; [exact Hruns|]. split; [exact Hf1 | exact Hf2].
    + destruct (Hfalse eq_refl) as (-> & Hout & Hsl).
      destruct Hfinal as (Hf1 & Hf2).
      split; [lia|]. split; [by rewrite Hout|].
      split; [done|]. split.
      { intros _. by rewrite Hout, Hsl. }
      split; [exact Hevs|]. split; [exact Hf2|].
      split; [exact Hruns | exact Hf1].
Qed.
End ReporterFacts.

(* ================================================================== *)
(** * The filter on examples (V8, UTC zone) *)
(* ================================================================== *)

Example cutoff_june_first :
  cutoffTimestamp utcTZA june_first 30 = Some 1714608000000.
Proof. reflexivity. Qed.

(** Further back than a Date can go, the cutoff is NaN and every
    comparison with it fails: nothing is retained. *)
Example cutoff_out_of_range :
  cutoffTimestamp utcTZA june_first 200000000 = None
  /\ trimmedLines utcTZA v8_parse june_first 200000000
       (lit "Heartbeat update successful at 2024-05-31 10:00:00 UTC")
     = [trailer1 june_first; trailer2 200000000].
Proof. vm_compute. split; reflexivity. Qed.

(** C1, as stated, fails for a window that reaches further back than a
    Date can: with 200000000 days of retention the header of the day
    before is not older than [now] minus the window, yet the line is
    dropped. *)
Lemma window_beyond_the_date_range_drops_a_recent_header :
  let line := lit "Heartbeat update successful at 2024-05-31 10:00:00 UTC" in
  let daysToKeep := 200000000 in
  let t := 1717149600000 in
  let cutoff := cutoffTimestamp utcTZA june_first daysToKeep in
  0 <= daysToKeep
  /\ header_match line = Some (lit "2024-05-31 10:00:00")
  /\ v8_parse (lit "2024-05-31 10:00:00" ++ lit " UTC") = Some t
  /\ june_first - daysToKeep * 86400000 <= t
  /\ output (scan v8_parse cutoff ([] ++ [line]))
     = output (scan v8_parse cutoff [])
  /\ ~ (output (scan v8_parse cutoff ([] ++ [line]))
        = output (scan v8_parse cutoff []) ++ [line]
        <-> june_first - daysToKeep * 86400000 <= t).
Proof.
  intros line daysToKeep t cutoff.
  assert (Hle : june_first - daysToKeep * 86400000 <= t)
    by (unfold june_first, daysToKeep, t; lia).
  split; [unfold daysToKeep; lia|].
  split; [vm_compute; reflexivity|].
  split; [vm_compute; reflexivity|].
  split; [exact Hle|].
  assert (Hout : output (scan v8_parse cutoff ([] ++ [line])) = [])
    by (vm_compute; reflexivity).
  split; [rewrite Hout; vm_compute; reflexivity|].
  intros [_ H]. specialize (H Hle). rewrite Hout in H.
  vm_compute in H. discriminate H.
Qed.

(** The scenario of the specification: an entry of January with its
    detail line, thirty days of retention, run on 2024-06-01. *)
Example january_entry_is_dropped :
  trimmedLines utcTZA v8_parse june_first 30
    (lit "Heartbeat update successful at 2024-01-01 00:00:00 UTC" ++ [LF]
       ++ lit "  detail line")
  = [lit "Heartbeat log maintenance successful at 2024-06-01 00:00:00 UTC";
     lit "Removed entries older than 30 days"].
Proof. vm_compute. reflexivity. Qed.

Lemma header_line_kept_iff_not_before_cutoff_witness :
  let line := lit "Heartbeat update successful at 2024-05-02 00:00:00 UTC" in
  let cutoff := cutoffTimestamp utcTZA june_first 30 in
  header_match line = Some (lit "2024-05-02 00:00:00")
  /\ v8_parse (lit "2024-05-02 00:00:00" ++ lit " UTC") = Some 1714608000000
  /\ (output (scan v8_parse cutoff ([] ++ [line]))
      = output (scan v8_parse cutoff []) ++ [line]
      <-> 1714608000000 <= 1714608000000).
Proof.
  intros line cutoff.
  assert (H1 : header_match line = Some (lit "2024-05-02 00:00:00"))
    by (vm_compute; reflexivity).
  assert (H2 : v8_parse (lit "2024-05-02 00:00:00" ++ lit " UTC")
               = Some 1714608000000) by (vm_compute; reflexivity).
  split; [exact H1|]. split; [exact H2|].
  destruct (header_line_kept_iff_not_before_cutoff utcTZA v8_parse
              june_first 30 [] line _ _ H1 H2) as (_ & _ & _ & _ & H & _).
  apply (H 1714608000000). reflexivity.
Defined.

Lemma continuation_line_follows_its_header_witness :
  let pre := [lit "Heartbeat update failed at 2024-05-31 10:00:00 UTC"] in
  let line := lit "Failed to update GitHub file. Check your token." in
  let cutoff := cutoffTimestamp utcTZA june_first 30 in
  header_match line = None
  /\ (output (scan v8_parse cutoff (pre ++ [line]))
      = output (scan v8_parse cutoff pre) ++ [line]
      <-> last_header_kept v8_parse cutoff pre = true).
Proof.
  intros pre line cutoff.
  assert (H1 : header_match line = None) by (vm_compute; reflexivity).
  split; [exact H1|].
  exact (proj1 (proj2
    (continuation_line_follows_its_header v8_parse cutoff pre line H1))).
Defined.

(** C3, as stated, fails: [at banana UTC] has no digits, so it does not
    match the header pattern; it is a continuation line, kept after a
    header that was kept, and it leaves [keepCurrentBlock] true. *)
Lemma banana_line_is_kept_as_a_continuation :
  let pre := [lit "Heartbeat update successful at 2024-05-31 10:00:00 UTC"] in
  let line := lit "at banana UTC" in
  let cutoff := cutoffTimestamp utcTZA june_first 30 in
  let before := scan v8_parse cutoff pre in
  let after := scan v8_parse cutoff (pre ++ [line]) in
  header_match line = None
  /\ output after = output before ++ [line]
  /\ keepCurrentBlock after = true
  /\ ~ (output after = output before /\ keepCurrentBlock after = false).
Proof.
  vm_compute. repeat split; try reflexivity. intros [_ H]. discriminate H.
Qed.

Lemma unparseable_header_is_expired_witness :
  let pre := [lit "Heartbeat update successful at 2024-05-31 10:00:00 UTC"] in
  let line := lit "Heartbeat update successful at 2024-13-45 10:00:00 UTC" in
  let cutoff := cutoffTimestamp utcTZA june_first 30 in
  header_match line = Some (lit "2024-13-45 10:00:00")
  /\ v8_parse (lit "2024-13-45 10:00:00" ++ lit " UTC") = None
  /\ output (scan v8_parse cutoff (pre ++ [line]))
     = output (scan v8_parse cutoff pre)
  /\ keepCurrentBlock (scan v8_parse cutoff (pre ++ [line])) = false.
Proof.
  intros pre line cutoff.
  assert (H1 : header_match line = Some (lit "2024-13-45 10:00:00"))
    by (vm_compute; reflexivity).
  assert (H2 : v8_parse (lit "2024-13-45 10:00:00" ++ lit " UTC") = None)
    by (vm_compute; reflexivity).
  split; [exact H1|]. split; [exact H2|].
  destruct (unparseable_header_is_expired v8_parse cutoff pre line _ H1 H2)
    as (Ha & Hb & _).
  split; [exact Ha | exact Hb].
Defined.

(** C4, as stated, fails for zero days of retention: the cutoff is [now]
    to the millisecond, the first run's maintenance line carries [now]
    cut to the second, so the second run drops it and the line after
    it. Here the log is empty and the clock reads 12:00:00.500. *)
Lemma rerun_with_zero_days_drops_the_first_trailer_pair :
  let now := 1717243200500 in
  let first := trimmedText utcTZA v8_parse now 0 [] in
  let second := trimmedText utcTZA v8_parse now 0 first in
  split_lines first = [trailer1 now; trailer2 0]
  /\ split_lines second = [trailer1 now; trailer2 0]
  /\ second <> first ++ [LF] ++ trailer1 now ++ [LF] ++ trailer2 0.
Proof.
  vm_compute. repeat split; try reflexivity. intros H. discriminate H.
Qed.

Lemma rerun_keeps_first_run_and_adds_one_trailer_pair_witness :
  let now1 := 1717243200500 in
  let now2 := 1717243200900 in
  let content :=
    lit "Heartbeat update successful at 2024-05-31 10:00:00 UTC" ++ [LF]
      ++ lit "  detail line" in
  let first := trimmedText utcTZA v8_parse now1 30 content in
  let second := trimmedText utcTZA v8_parse now2 30 first in
  second = first ++ [LF] ++ trailer1 now2 ++ [LF] ++ trailer2 30.
Proof.
  intros now1 now2 content first second.
  refine (proj1 (rerun_keeps_first_run_and_adds_one_trailer_pair
                   utcTZA v8_parse now1 now2 30 content
                   1714651200900 1717243200000 _ _ _ _ _)).
  - vm_compute. split; discriminate.
  - vm_compute. reflexivity.
  - vm_compute. reflexivity.
  - vm_compute. discriminate.
  - intros line ts t Hline.
    change (split_lines content)
      with [lit "Heartbeat update successful at 2024-05-31 10:00:00 UTC";
            lit "  detail line"] in Hline.
    apply elem_of_cons in Hline as [->|Hline].
    + intros [= <-] [= <-] _. vm_compute. discriminate.
    + apply list_elem_of_singleton in Hline as ->. intros Hm.
      vm_compute in Hm. discriminate Hm.
Defined.

Lemma trailer_pair_always_appended_witness :
  exists text,
    trimHeartbeatLog utcTZA v8_parse example_config june_first (example_fs [])
      !! heartbeat_log example_config = Some text
    /\ split_lines text = [trailer1 june_first; trailer2 30].
Proof.
  destruct (trailer_pair_always_appended utcTZA v8_parse example_config
              june_first (example_fs []) [])
    as (text & H1 & H2 & _).
  - apply lookup_singleton_eq.
  - exists text. split; [exact H1|]. rewrite H2. reflexivity.
Defined.

Lemma output_is_input_subsequence_plus_trailers_witness :
  let content :=
    lit "Heartbeat update successful at 2024-01-01 00:00:00 UTC" ++ [LF]
      ++ lit "  detail line" in
  exists text kept,
    trimHeartbeatLog utcTZA v8_parse example_config june_first
      (example_fs content) !! heartbeat_log example_config = Some text
    /\ split_lines text = kept ++ [trailer1 june_first; trailer2 30]
    /\ sublist kept (split_lines content).
Proof.
  intros content.
  apply (output_is_input_subsequence_plus_trailers utcTZA v8_parse
           example_config june_first (example_fs content) content).
  apply lookup_singleton_eq.
Defined.

Lemma log_is_replaced_by_rename_witness :
  let content :=
    lit "Heartbeat update successful at 2024-05-31 10:00:00 UTC" in
  let new := trimmedText utcTZA v8_parse june_first 30 content in
  let final :=
    trimHeartbeatLog utcTZA v8_parse example_config june_first
      (example_fs content) in
  example_fs content !! heartbeat_log example_config = Some content
  /\ final !! heartbeat_log example_config = Some new
  /\ final !! tempFile example_config = None.
Proof.
  intros content new final.
  assert (H : example_fs content !! heartbeat_log example_config
              = Some content) by apply lookup_singleton_eq.
  split; [exact H|].
  destruct (log_is_replaced_by_rename utcTZA v8_parse example_config
              june_first (example_fs content) content H)
    as (writing & _ & _ & _ & Hnew & Htmp & _).
  split; [exact Hnew | exact Htmp].
Defined.

(* ================================================================== *)
(** * The reporter on examples *)
(* ================================================================== *)

Example newest_error_log_is_selected :
  checkErrorLog readme_pattern codeUnitCompare ascii_toString
    (Listing [(lit "error_2024-05-30.log", Regular (lit "old failure"));
              (lit "notes.txt", Regular (lit "unrelated"));
              (lit "error_2024-06-01.log", Regular (lit "disk full"))])
  = {| has_error := true;
       error_message_text := lit "Error log contains 9 bytes";
       latest_log := Some (lit "error_2024-06-01.log");
       log_content := Some (lit "disk full") |}.
Proof. vm_compute. reflexivity. Qed.

Lemma checkErrorLog_classification_witness :
  let entries :=
    [(lit "error_2024-05-30.log", Regular (lit "old failure"));
     (lit "error_2024-06-01.log", Regular [])] in
  let status :=
    checkErrorLog readme_pattern codeUnitCompare ascii_toString
      (Listing entries) in
  latest_log status = Some (lit "error_2024-06-01.log")
  /\ has_error status = false /\ log_content status = None.
Proof.
  intros entries status.
  destruct (checkErrorLog_classification readme_pattern codeUnitCompare
              ascii_toString entries) as (_ & H & _).
  destruct (H (lit "error_2024-06-01.log") [])
    as (_ & _ & _ & Hlatest & Hempty & _).
  - vm_compute. reflexivity.
  - vm_compute. reflexivity.
  - split; [exact Hlatest|]. apply Hempty. reflexivity.
Defined.

(** On the first run the fetch answers 404: one GET, then a write
    without [sha] that creates the document, and the upsert succeeds. *)
Example first_run_creates_the_document :
  updateGithubFile first_run_network unit (fun _ => lit "e30=") tt []
  = (Ok true,
     [EvRequest getRequest;
      EvRequest (createRequest unit (fun _ => lit "e30=") tt)]).
Proof. vm_compute. reflexivity. Qed.

Lemma upsert_attaches_sha_only_when_fetched_witness :
  exists evs trPut,
    updateGithubFile later_run_network unit (fun _ => lit "e30=") tt []
    = (Ok (write_succeeded
             (later_run_network trPut
                (updateRequest unit (fun _ => lit "e30=")
                   (JString (lit "abc123")) tt))),
       [] ++ evs)
    /\ requests_of evs
       = [getRequest;
          updateRequest unit (fun _ => lit "e30=") (JString (lit "abc123")) tt].
Proof.
  destruct (upsert_attaches_sha_only_when_fetched later_run_network unit
              (fun _ => lit "e30=") tt [])
    as (evs & trPut & put & Hrun & Hreq & _ & _ & _ & Hupdate).
  assert (Hput : put = updateRequest unit (fun _ => lit "e30=")
                         (JString (lit "abc123")) tt).
  { apply (Hupdate {| statusCode := 200;
                      response_data := DataWith (JString (lit "abc123")) |}
                   (lit "abc123")).
    - reflexivity.
    - reflexivity.
    - reflexivity.
    - vm_compute. discriminate. }
  exists evs, trPut. rewrite <- Hput. split; [exact Hrun | exact Hreq].
Defined.

Example dead_network_three_attempts :
  sleeps_of
    (snd (main dead_network unit (fun _ => lit "2024-06-01 00:00:00")
            (fun _ => lit "e30=") (ret tt) (fun e => e) []))
  = [2000; 4000; 6000]
  /\ length (requests_of
       (snd (main dead_network unit (fun _ => lit "2024-06-01 00:00:00")
               (fun _ => lit "e30=") (ret tt) (fun e => e) []))) = 6%nat
  /\ fst (main dead_network unit (fun _ => lit "2024-06-01 00:00:00")
            (fun _ => lit "e30=") (ret tt) (fun e => e) []) = Ok tt.
Proof. vm_compute. repeat split; reflexivity. Qed.

Lemma publisher_retries_three_times_and_never_raises_witness :
  exists (success : bool) (evs : list Event),
    retryLoop dead_network unit (fun _ => lit "e30=") (Z.to_nat attempts) 1 tt []
    = (Ok success, [] ++ evs)
    /\ main dead_network unit (fun _ => lit "2024-06-01 00:00:00")
         (fun _ => lit "e30=") (ret tt) (fun e => e) []
       = (Ok tt,
          [] ++ evs
            ++ EvConsole Log
                 (lit "Heartbeat update "
                    ++ (if success then lit "successful" else lit "failed")
                    ++ lit " at " ++ lit "2024-06-01 00:00:00" ++ lit " UTC")
            :: (if success then []
                else [EvConsole Error
                        (lit "Failed to update GitHub file. Check your token and network connection.")])).
Proof.
  exact (proj2 (proj2 (proj2 (proj2 (proj2
    (publisher_retries_three_times_and_never_raises dead_network unit
       (fun _ => lit "2024-06-01 00:00:00") (fun _ => lit "e30=") (ret tt)
       (fun e => e) tt []))))) []).
Defined.

(* ================================================================== *)
(** * More about the log retention filter *)
(* ================================================================== *)

Import Notions.

(** ** The header pattern, piece by piece *)

Lemma re_lit_inv l s m r : re_lit l s = Some (m, r) -> m = l /\ s = l ++ r.
Proof.
  revert s m r. induction l as [|a l IH]; intros s m r H; simpl in H.
  - by injection H as <- <-.
  - destruct s as [|c s]; [done|].
    destruct (N.eqb_spec a c) as [->|]; [|done].
    destruct (re_lit l s) as [[m' r']|] eqn:E; [|done].
    injection H as <- <-. destruct (IH _ _ _ E) as [-> ->]. done.
Qed.

Lemma re_digits_inv n s ds r :
  re_digits n s = Some (ds, r) -> digits n ds /\ s = ds ++ r.
Proof.
  revert s ds r. induction n as [|n IH]; intros s ds r H; simpl in H.
  - injection H as <- <-. repeat split. constructor.
  - destruct s as [|c s]; [done|].
    destruct (is_digit c) eqn:Hc; [|done].
    destruct (re_digits n s) as [[ds' r']|] eqn:E; [|done].
    injection H as <- <-. destruct (IH _ _ _ E) as [[Hlen Hall] ->].
    repeat split; [simpl; by rewrite Hlen | by constructor].
Qed.

Lemma span_space_spec s :
  s = fst (span_space s) ++ snd (span_space s)
  /\ Forall (fun c => is_space c = true) (fst (span_space s))
  /\ not_space_next (snd (span_space s)).
Proof.
  induction s as [|c s IH]; simpl; [by repeat split|].
  destruct (is_space c) eqn:Hc; simpl; [|by repeat split].
  destruct (span_space s) as [w r]. simpl in *.
  destruct IH as (-> & Hw & Hr). repeat split; [by constructor | done].
Qed.

Lemma span_space_app w r :
  Forall (fun c => is_space c = true) w -> not_space_next r ->
  span_space (w ++ r) = (w, r).
Proof.
  intros Hw Hr. induction Hw as [|c w Hc Hw IH].
  - destruct r as [|c r]; [done|]. unfold not_space_next in Hr.
    cbn [app span_space]. by rewrite Hr.
  - cbn [app span_space]. by rewrite Hc, IH.
Qed.

Lemma re_spaces1_inv s w r :
  re_spaces1 s = Some (w, r) -> spaces1 w /\ s = w ++ r /\ not_space_next r.
Proof.
  unfold re_spaces1. destruct s as [|c s]; [done|].
  destruct (is_space c) eqn:Hc; [|done]. intros H.
  assert (H' : span_space (c :: s) = (w, r)) by congruence. clear H.
  pose proof (span_space_spec (c :: s)) as Hspec.
  rewrite H' in Hspec. cbn [fst snd] in Hspec.
  destruct Hspec as (Hs & Hw & Hr).
  repeat split; try done.
  intros ->. simpl in Hs. subst r. unfold not_space_next in Hr. congruence.
Qed.

Lemma re_spaces1_app w r :
  spaces1 w -> not_space_next r -> re_spaces1 (w ++ r) = Some (w, r).
Proof.
  intros [Hne Hw] Hr. unfold re_spaces1.
  destruct w as [|c w]; [done|]. cbn [app].
  pose proof Hw as Hw'. apply Forall_cons in Hw' as [Hc _]. rewrite Hc.
  f_equal. apply (span_space_app (c :: w) r Hw Hr).
Qed.

Lemma re_seq_inv p q s m r :
  (p >> q) s = Some (m, r) ->
  exists m1 r1 m2, p s = Some (m1, r1) /\ q r1 = Some (m2, r) /\ m = m1 ++ m2.
Proof.
  unfold re_seq. destruct (p s) as [[m1 r1]|] eqn:Ep; [|done].
  destruct (q r1) as [[m2 r2]|] eqn:Eq; [|done]. intros [= <- <-].
  exists m1, r1, m2. done.
Qed.

Lemma digits_next n ds r : digits (S n) ds -> not_space_next (ds ++ r).
Proof.
  intros [Hlen Hall]. destruct ds as [|c ds]; [done|].
  apply Forall_cons in Hall as [Hc _]. simpl. by apply is_digit_not_space.
Qed.

(** The capture group matches exactly the texts of its shape. *)
Lemma re_timestamp_shape ts r :
  timestamp_shape ts -> re_timestamp (ts ++ r) = Some (ts, r).
Proof.
  intros (y & mo & d & w & h & mi & s & -> & Hy & Hmo & Hd & Hw & Hh & Hmi & Hs).
  unfold re_timestamp, re_seq. rewrite <- !app_assoc.
  rewrite (re_digits_field 4 y) by done. cbv beta iota.
  rewrite re_lit_app. cbv beta iota.
  rewrite (re_digits_field 2 mo) by done. cbv beta iota.
  rewrite re_lit_app. cbv beta iota.
  rewrite (re_digits_field 2 d) by done. cbv beta iota.
  rewrite (re_spaces1_app w) by (done || by eapply digits_next). cbv beta iota.
  rewrite (re_digits_field 2 h) by done. cbv beta iota.
  rewrite re_lit_app. cbv beta iota.
  rewrite (re_digits_field 2 mi) by done. cbv beta iota.
  rewrite re_lit_app. cbv beta iota.
  rewrite (re_digits_field 2 s) by done. cbv beta iota.
  done.
Qed.

Lemma re_timestamp_inv s ts r :
  re_timestamp s = Some (ts, r) -> timestamp_shape ts /\ s = ts ++ r.
Proof.
  unfold re_timestamp. intros H.
  repeat match goal with
         | H : (_ >> _) _ = Some _ |- _ =>
             apply re_seq_inv in H as (? & ? & ? & ? & H & ?)
         end.
  repeat match goal with
         | H : re_digits _ _ = Some _ |- _ => apply re_digits_inv in H as [? ?]
         | H : re_lit _ _ = Some _ |- _ => apply re_lit_inv in H as [? ?]
         | H : re_spaces1 _ = Some _ |- _ => apply re_spaces1_inv in H as (? & ? & ?)
         end.
  subst. split.
  - do 7 eexists. split; [reflexivity|].
    repeat (split; [assumption|]). assumption.
  - by rewrite <- !app_assoc.
Qed.

Lemma match_here_iff s ts : match_here s = Some ts <-> header_at s [] ts.
Proof.
  split.
  - unfold match_here. intros H.
    destruct ((re_lit (lit "at") >> re_spaces1) s) as [[m1 r1]|] eqn:E1; [|done].
    destruct (re_timestamp r1) as [[ts' r2]|] eqn:E2; [|done].
    destruct ((re_spaces1 >> re_lit (lit "UTC")) r2) as [[m3 r3]|] eqn:E3; [|done].
    injection H as ->.
    apply re_seq_inv in E1 as (a & ra & w1 & Ha & Hw1 & ->).
    apply re_lit_inv in Ha as [-> ->].
    apply re_spaces1_inv in Hw1 as (Hw1 & -> & _).
    apply re_timestamp_inv in E2 as [Hts ->].
    apply re_seq_inv in E3 as (w2 & rb & u & Hw2 & Hu & ->).
    apply re_spaces1_inv in Hw2 as (Hw2 & -> & _).
    apply re_lit_inv in Hu as [-> ->].
    exists w1, w2, r3. repeat (split; [done|]). done.
  - intros (w1 & w2 & post & -> & Hw1 & Hts & Hw2). rewrite app_nil_l.
    unfold match_here, re_seq.
    rewrite (re_lit_app (lit "at")). cbv beta iota.
    pose proof Hts as (y & mo & d & w & h & mi & s' & Hts' & Hy & _).
    rewrite (re_spaces1_app w1);
      [|done|rewrite Hts', <- !app_assoc; by eapply digits_next].
    cbv beta iota. rewrite re_timestamp_shape by done. cbv beta iota.
    rewrite (re_spaces1_app w2) by done. cbv beta iota.
    by rewrite (re_lit_app (lit "UTC")).
Qed.

Lemma header_match_first line ts :
  header_match line = Some ts <->
  exists pre rest,
    line = pre ++ rest /\ match_here rest = Some ts
    /\ forall i, (i < length pre)%nat -> match_here (drop i line) = None.
Proof.
  split.
  - induction line as [|c r IH]; intros H.
    + vm_compute in H. done.
    + cbn [header_match] in H.
      destruct (match_here (c :: r)) as [ts'|] eqn:E.
      * injection H as ->. exists [], (c :: r). repeat split; [done|].
        simpl. lia.
      * destruct (IH H) as (pre & rest & -> & Hm & Hnone).
        exists (c :: pre), rest. repeat split; [done|].
        intros [|i] Hi; [done|]. simpl. apply Hnone. simpl in Hi. lia.
  - intros (pre & rest & -> & Hm & Hnone).
    induction pre as [|c pre IH].
    + rewrite app_nil_l. destruct rest as [|c r]; [by vm_compute in Hm|].
      cbn [header_match]. by rewrite Hm.
    + rewrite <- app_comm_cons, header_match_skip.
      * apply IH. intros i Hi. apply (Hnone (S i)). simpl. lia.
      * apply (Hnone 0%nat). simpl. lia.
Qed.

Lemma header_match_None line :
  header_match line = None ->
  forall pre rest, line = pre ++ rest -> match_here rest = None.
Proof.
  induction line as [|c r IH]; intros H pre rest Hsplit.
  - symmetry in Hsplit. apply app_eq_nil in Hsplit as [-> ->].
    reflexivity.
  - cbn [header_match] in H.
    destruct (match_here (c :: r)) as [ts'|] eqn:E; [done|].
    destruct pre as [|c' pre]; simpl in Hsplit.
    + by subst rest.
    + injection Hsplit as -> Hr. by apply (IH H pre).
Qed.

Lemma header_at_anchor pre rest ts :
  header_at (pre ++ rest) pre ts <-> header_at rest [] ts.
Proof.
  unfold header_at. split; intros (w1 & w2 & post & H & Hrest).
  - apply app_inv_head in H. eauto.
  - exists w1, w2, post. split; [|done]. rewrite H. done.
Qed.

Lemma header_at_split line pre ts :
  header_at line pre ts -> line = pre ++ drop (length pre) line.
Proof.
  intros (w1 & w2 & post & -> & _). by rewrite drop_app_length.
Qed.

(** X1. [line.match(...)] finds the pattern exactly when the line holds,
    somewhere, the text [at], white space, a timestamp of the shape
    [dddd-dd-dd dd:dd:dd] (any white space between date and time), white
    space and [UTC]; group 1 is the timestamp of the leftmost such
    place. *)
Theorem header_match_is_the_leftmost_occurrence (line : jsstring) :
  (forall ts,
     header_match line = Some ts <->
     exists pre,
       header_at line pre ts
       /\ forall pre' ts', header_at line pre' ts' ->
                           (length pre <= length pre')%nat)
  /\ (header_match line = None <-> forall pre ts, ~ header_at line pre ts).
Proof.
  assert (Hsome : forall ts,
     header_match line = Some ts <->
     exists pre,
       header_at line pre ts
       /\ forall pre' ts', header_at line pre' ts' ->
                           (length pre <= length pre')%nat).
  { intros ts. rewrite header_match_first. split.
    - intros (pre & rest & -> & Hm & Hnone). exists pre. split.
      + apply header_at_anchor. by apply match_here_iff.
      + intros pre' ts' Hat.
        destruct (Nat.le_gt_cases (length pre) (length pre')) as [|Hlt]; [done|].
        specialize (Hnone _ Hlt).
        pose proof (header_at_split _ _ _ Hat) as Hsplit.
        rewrite Hsplit in Hat. apply header_at_anchor, match_here_iff in Hat.
        congruence.
    - intros (pre & Hat & Hmin).
      pose proof (header_at_split _ _ _ Hat) as Hsplit.
      exists pre, (drop (length pre) line). split; [done|]. split.
      + apply match_here_iff. apply (header_at_anchor pre). by rewrite <- Hsplit.
      + intros i Hi.
        destruct (match_here (drop i line)) as [ts'|] eqn:E; [|done].
        apply match_here_iff in E.
        apply (header_at_anchor (take i line)) in E.
        rewrite take_drop in E. apply Hmin in E.
        rewrite length_take in E.
        assert (length pre <= length line)%nat.
        { rewrite Hsplit, length_app. lia. }
        lia. }
  split; [exact Hsome|]. split.
  - intros Hnone pre ts Hat.
    pose proof (header_at_split _ _ _ Hat) as Hsplit.
    rewrite Hsplit in Hat. apply header_at_anchor, match_here_iff in Hat.
    rewrite (header_match_None _ Hnone pre _ Hsplit) in Hat. done.
  - intros Hno. destruct (header_match line) as [ts|] eqn:E; [|done].
    destruct (proj1 (Hsome ts) eq_refl) as (pre & Hat & _).
    by destruct (Hno pre ts).
Qed.

(** ** Reading a log and writing it back *)

Lemma join_split_lines_aux cur s :
  join_lines (split_lines_aux cur s) = cur ++ s.
Proof.
  revert cur. induction s as [|c r IH]; intros cur; simpl.
  - by rewrite app_nil_r.
  - destruct (N.eqb_spec c LF) as [->|_].
    + specialize (IH []). simpl in IH.
      destruct (split_lines_aux [] r) as [|l ls] eqn:E.
      * by apply (split_lines_nonempty r) in E.
      * change (join_lines (cur :: l :: ls))
          with (cur ++ LF :: join_lines (l :: ls)).
        by rewrite IH.
    + rewrite IH. by rewrite <- app_assoc.
Qed.

Lemma join_split_lines s : join_lines (split_lines s) = s.
Proof. apply join_split_lines_aux. Qed.

Section LoopMore.
Variable LocalTZA : Z -> bool -> Z.
Variable Date_parse : jsstring -> option Z.

Abbreviation scan_ := (scan Date_parse).
Abbreviation kept_ := (kept_lines Date_parse).
Abbreviation decision_ := (header_decision Date_parse).

(** ** What the retained lines look like *)

Lemma kept_lines_not_expired cutoff kb lines :
  Forall (fun line => decision_ cutoff line <> Some false)
    (kept_ cutoff kb lines).
Proof.
  revert kb. induction lines as [|line rest IH]; intros kb; simpl; [constructor|].
  destruct (decision_ cutoff line) as [[]|] eqn:E; [| apply IH |].
  - constructor; [congruence | apply IH].
  - destruct kb; [|apply IH]. constructor; [congruence | apply IH].
Qed.

Lemma kept_lines_starts_with_header cutoff lines first rest :
  kept_ cutoff false lines = first :: rest ->
  decision_ cutoff first = Some true.
Proof.
  induction lines as [|line lines IH]; simpl; [done|].
  destruct (decision_ cutoff line) as [[]|] eqn:E; [|apply IH..].
  by intros [= <- _].
Qed.

(** X2. Among the retained lines no header line is older than the
    cutoff: each parses to a valid instant at or after a valid cutoff.
    The first retained line is a header line. *)
Theorem no_expired_header_survives (cutoff : option Z) (lines : list jsstring) :
  let out := output (scan_ cutoff lines) in
  Forall (fun line =>
            forall ts, header_match line = Some ts ->
              exists t c, Date_parse (ts ++ lit " UTC") = Some t
                          /\ cutoff = Some c /\ c <= t) out
  /\ (forall first rest, out = first :: rest ->
        exists ts, header_match first = Some ts).
Proof.
  intros out. unfold out. rewrite output_scan. split.
  - eapply Forall_impl; [apply kept_lines_not_expired|].
    intros line Hd ts Hm. unfold header_decision in Hd. rewrite Hm in Hd.
    destruct (Date_parse (ts ++ lit " UTC")) as [t|]; [|done].
    destruct cutoff as [c|]; [|done]. simpl in Hd.
    exists t, c. repeat split. apply Z.leb_le.
    destruct (c <=? t); [done|congruence].
  - intros first rest H. apply kept_lines_starts_with_header in H.
    unfold header_decision in H. destruct (header_match first); eauto. done.
Qed.

(** ** A later cutoff keeps less *)

Lemma kept_lines_mono c1 cut2 kb1 kb2 lines :
  (cut2 = None \/ exists c2, cut2 = Some c2 /\ c1 <= c2) ->
  (kb2 = true -> kb1 = true) ->
  sublist (kept_ cut2 kb2 lines) (kept_ (Some c1) kb1 lines).
Proof.
  intros Hcut. revert kb1 kb2.
  induction lines as [|line rest IH]; intros kb1 kb2 Hkb; simpl; [constructor|].
  unfold header_decision. destruct (header_match line) as [ts|].
  - assert (Hd : ES.num_ge (Date_parse (ts ++ lit " UTC")) cut2 = true ->
                 ES.num_ge (Date_parse (ts ++ lit " UTC")) (Some c1) = true).
    { destruct (Date_parse (ts ++ lit " UTC")) as [t|]; [|done].
      destruct Hcut as [->|(c2 & -> & Hle)]; [done|]. simpl.
      rewrite !Z.leb_le. lia. }
    destruct (ES.num_ge _ cut2) eqn:E2.
    + rewrite (Hd eq_refl). constructor. by apply IH.
    + destruct (ES.num_ge _ (Some c1)).
      * apply sublist_cons. by apply IH.
      * by apply IH.
  - destruct kb2.
    + rewrite (Hkb eq_refl). constructor. by apply IH.
    + destruct kb1; [apply sublist_cons|]; by apply IH.
Qed.

(** X3. With a later cutoff (a shorter window), or a cutoff that is not
    a valid date, the retained lines are a subsequence of those retained
    with the earlier cutoff: widening the window never loses a line. *)
Theorem later_cutoff_keeps_a_subsequence
    (c1 : Z) (cut2 : option Z) (lines : list jsstring) :
  (cut2 = None \/ exists c2, cut2 = Some c2 /\ c1 <= c2) ->
  sublist (output (scan Date_parse cut2 lines))
          (output (scan Date_parse (Some c1) lines)).
Proof. intros H. rewrite !output_scan. by apply kept_lines_mono. Qed.

(** ** Lines are decided from what comes before them *)

(** X4. What is retained of a log is a prefix of what is retained of the
    same log with more lines appended: the decision on a line never
    depends on the lines after it. *)
Theorem retained_lines_grow_by_appending
    (cutoff : option Z) (lines more : list jsstring) :
  output (scan Date_parse cutoff lines)
    `prefix_of` output (scan Date_parse cutoff (lines ++ more)).
Proof.
  unfold scan. rewrite fold_left_app.
  set (st := fold_left _ lines initial).
  rewrite (fold_process_kept Date_parse cutoff more st). by eexists.
Qed.

Lemma fold_continuations cutoff st conts :
  Forall (fun l => header_match l = None) conts ->
  fold_left (process_line Date_parse cutoff) conts st
  = if keepCurrentBlock st then
      {| currentTimestamp := currentTimestamp st;
         currentTimestampMs := currentTimestampMs st;
         keepCurrentBlock := true;
         output := output st ++ conts |}
    else st.
Proof.
  intros H. revert st. induction H as [|l conts Hl _ IH]; intros st; simpl.
  - destruct st as [a b [] d]; simpl; by rewrite ?app_nil_r.
  - rewrite IH. unfold process_line. rewrite Hl.
    destruct (keepCurrentBlock st) eqn:K; simpl; [|by rewrite K].
    by rewrite <- app_assoc.
Qed.

Lemma entry_output cutoff pre header ts conts :
  header_match header = Some ts ->
  Forall (fun l => header_match l = None) conts ->
  output (scan_ cutoff (pre ++ header :: conts))
  = output (scan_ cutoff pre)
      ++ (if ES.num_ge (Date_parse (ts ++ lit " UTC")) cutoff
          then header :: conts else []).
Proof.
  intros Hm Hc. unfold scan. rewrite fold_left_app.
  set (st := fold_left _ pre initial). cbn [fold_left].
  rewrite fold_continuations by done.
  unfold process_line. rewrite Hm.
  destruct (ES.num_ge _ cutoff); cbn [keepCurrentBlock output].
  - by rewrite <- app_assoc.
  - by rewrite app_nil_r.
Qed.

(** X5. An entry, that is a header line with the untimed lines that
    follow it up to the next header line, is retained whole or dropped
    whole, by the timestamp of its header line alone. *)
Theorem entry_is_kept_or_dropped_whole
    (cutoff : option Z) (pre : list jsstring) (header ts : jsstring)
    (conts : list jsstring) :
  header_match header = Some ts ->
  Forall (fun l => header_match l = None) conts ->
  output (scan_ cutoff (pre ++ header :: conts))
  = output (scan_ cutoff pre)
      ++ (if ES.num_ge (Date_parse (ts ++ lit " UTC")) cutoff
          then header :: conts else []).
Proof. apply entry_output. Qed.

(** X6. The two maintenance lines are themselves an entry of the log:
    the first matches the header pattern with the time of the run as
    its timestamp, the second is an untimed line, so a later run keeps
    or drops the pair together, by that timestamp. *)
Theorem maintenance_lines_are_an_entry (now daysToKeep : Z) :
  0 <= ES.YearFromTime now <= 9999 ->
  header_match (trailer1 now) = Some (formattedDate now)
  /\ header_match (trailer2 daysToKeep) = None
  /\ forall cutoff pre,
       output (scan_ cutoff (pre ++ [trailer1 now; trailer2 daysToKeep]))
       = output (scan_ cutoff pre)
           ++ (if ES.num_ge (Date_parse (formattedDate now ++ lit " UTC"))
                    cutoff
               then [trailer1 now; trailer2 daysToKeep] else []).
Proof.
  intros Hy. split; [by apply header_match_trailer1|].
  split; [apply header_match_trailer2|].
  intros cutoff pre. apply entry_output; [by apply header_match_trailer1|].
  constructor; [apply header_match_trailer2 | constructor].
Qed.

(** ** The cutoff *)

Lemma scan_no_cutoff lines : output (scan_ None lines) = [].
Proof.
  rewrite output_scan.
  induction lines as [|line rest IH]; simpl; [done|].
  unfold header_decision. destruct (header_match line) as [ts|]; [|done].
  by destruct (Date_parse (ts ++ lit " UTC")).
Qed.

(** X7. When the cutoff is not a valid date (the window reaches further
    back than a Date can), every comparison with it fails: the run
    removes every line of the log and leaves the two maintenance lines
    only. *)
Theorem invalid_cutoff_drops_every_line (now daysToKeep : Z)
    (content : jsstring) :
  cutoffTimestamp LocalTZA now daysToKeep = None ->
  trimmedText LocalTZA Date_parse now daysToKeep content
  = trailer1 now ++ [LF] ++ trailer2 daysToKeep.
Proof.
  intros H. unfold trimmedText, trimmedLines. by rewrite H, scan_no_cutoff.
Qed.

(** ** A log with nothing to remove *)

Lemma kept_lines_all cutoff lines :
  Forall (fun l => decision_ cutoff l <> Some false) lines ->
  kept_ cutoff true lines = lines.
Proof.
  induction 1 as [|line rest Hl _ IH]; simpl; [done|].
  destruct (decision_ cutoff line) as [[]|]; [|done|]; by rewrite IH.
Qed.

(** X8. A log that starts with a header line inside the window and has
    no header line outside it is written back as it is, byte for byte,
    followed by the two maintenance lines. *)
Theorem unexpired_log_is_kept_verbatim (now daysToKeep : Z)
    (content first : jsstring) (rest : list jsstring) :
  let cutoff := cutoffTimestamp LocalTZA now daysToKeep in
  split_lines content = first :: rest ->
  decision_ cutoff first = Some true ->
  Forall (fun l => decision_ cutoff l <> Some false) rest ->
  trimmedText LocalTZA Date_parse now daysToKeep content
  = content ++ [LF] ++ trailer1 now ++ [LF] ++ trailer2 daysToKeep.
Proof.
  intros cutoff Hsplit Hfirst Hrest.
  unfold trimmedText, trimmedLines. fold cutoff.
  rewrite output_scan, Hsplit. simpl kept_lines. rewrite Hfirst.
  rewrite kept_lines_all by done. rewrite <- Hsplit.
  change (split_lines content ++ [trailer1 now; trailer2 daysToKeep])
    with (split_lines content ++ [trailer1 now] ++ [trailer2 daysToKeep]).
  rewrite app_assoc, !join_lines_snoc;
    [|apply split_lines_nonempty
     |intros H; apply app_eq_nil in H as [H _];
      by apply split_lines_nonempty in H].
  rewrite join_split_lines. by rewrite <- app_assoc.
Qed.

(** ** The rest of the file system *)

(** X9. A run touches two paths only, the log and [<log>.tmp]: every
    other file holds the same text in every state of the run. Without a
    log file the run changes nothing at all. *)
Theorem other_files_are_untouched (config : Config) (now : Z)
    (fs : FileSystem) :
  (forall p s,
     p <> heartbeat_log config -> p <> tempFile config ->
     s ∈ trimHeartbeatLog_states LocalTZA Date_parse config now fs ->
     s !! p = fs !! p)
  /\ (forall p,
        p <> heartbeat_log config -> p <> tempFile config ->
        trimHeartbeatLog LocalTZA Date_parse config now fs !! p = fs !! p)
  /\ (fs !! heartbeat_log config = None ->
      trimHeartbeatLog LocalTZA Date_parse config now fs = fs
      /\ trimHeartbeatLog_states LocalTZA Date_parse config now fs = [fs]).
Proof.
  assert (Hfinal : forall p,
            p <> heartbeat_log config -> p <> tempFile config ->
            trimHeartbeatLog LocalTZA Date_parse config now fs !! p = fs !! p).
  { intros p Hlog Htmp. unfold trimHeartbeatLog, renameSync.
    destruct (fs !! heartbeat_log config) as [content|]; [|done].
    rewrite lookup_insert_eq.
    by rewrite lookup_insert_ne, lookup_delete_ne, lookup_insert_ne. }
  split; [|split; [exact Hfinal|]].
  - intros p s Hlog Htmp. unfold trimHeartbeatLog_states.
    pose proof (Hfinal p Hlog Htmp) as Hf. unfold trimHeartbeatLog in Hf.
    destruct (fs !! heartbeat_log config) as [content|].
    + intros [->|Hs]%elem_of_cons; [done|].
      apply elem_of_app in Hs as [Hs|Hs].
      * unfold writeFileSync_states in Hs.
        apply list_elem_of_fmap in Hs as (k & -> & _).
        by rewrite lookup_insert_ne.
      * apply list_elem_of_singleton in Hs as ->. exact Hf.
    + by intros ->%list_elem_of_singleton.
  - intros H. unfold trimHeartbeatLog, trimHeartbeatLog_states.
    by rewrite H.
Qed.

End LoopMore.

(** X10. In a zone whose offset never changes, the cutoff is [now] minus
    [daysToKeep] times 24 hours, whatever the offset and whatever the
    lengths of the months in between; it is NaN exactly when that instant
    is outside the range of Date. *)
Theorem cutoff_in_a_fixed_offset_zone (offset now daysToKeep : Z) :
  cutoffTimestamp (fun _ _ => offset) now daysToKeep
  = if Z.abs (now - daysToKeep * 86400000) <=? 8640000000000000
    then Some (now - daysToKeep * 86400000) else None.
Proof.
  rewrite cutoffTimestamp_days_ago. unfold UTC, LocalTime, ES.TimeClip.
  replace (now + offset - daysToKeep * ES.msPerDay - offset)
    with (now - daysToKeep * 86400000) by (unfold ES.msPerDay; lia).
  reflexivity.
Qed.

(* ================================================================== *)
(** * More about the heartbeat reporter *)
(* ================================================================== *)

Import Collector.

(** ** The order of the error logs *)

Lemma sort_head cmp l h :
  (forall x y, x ∈ l -> y ∈ l -> 0 < cmp x y -> cmp y x <= 0) ->
  (forall x y z, x ∈ l -> y ∈ l -> z ∈ l ->
     cmp x y <= 0 -> cmp y z <= 0 -> cmp x z <= 0) ->
  head (sort cmp l) = Some h ->
  exists pre post,
    l = pre ++ h :: post
    /\ (forall y, y ∈ l -> cmp h y <= 0)
    /\ (forall z, z ∈ pre -> 0 < cmp z h).
Proof.
  revert h. induction l as [|a l IH]; intros h Htot Htrans Hhead; [done|].
  assert (Hrefl : forall x, x ∈ a :: l -> cmp x x <= 0).
  { intros x Hx. destruct (Z.le_gt_cases (cmp x x) 0) as [|Hgt]; [done|].
    by apply Htot. }
  change (sort cmp (a :: l)) with (sort_insert cmp a (sort cmp l)) in Hhead.
  destruct (sort cmp l) as [|h' r] eqn:Es.
  - assert (l = []) as ->.
    { apply Permutation_nil_r. rewrite <- Es. symmetry. apply sort_Permutation. }
    injection Hhead as <-. exists [], []. repeat split; [|by intros z Hz%elem_of_nil].
    intros y Hy. apply list_elem_of_singleton in Hy as ->. apply Hrefl. left.
  - destruct (IH h') as (pre & post & Hl & Hmax & Hpre); [| |done|].
    { intros x y Hx Hy. apply Htot; by right. }
    { intros x y z Hx Hy Hz. apply Htrans; by right. }
    assert (Hh' : h' ∈ l) by (rewrite Hl; set_solver).
    simpl in Hhead. destruct (Z.leb_spec (cmp a h') 0) as [Hle|Hgt].
    + injection Hhead as <-. exists [], l. repeat split; [|by intros z Hz%elem_of_nil].
      intros y [->|Hy]%elem_of_cons; [apply Hrefl; left|].
      apply (Htrans a h' y); [left | by right | by right | done | by apply Hmax].
    + injection Hhead as <-. exists (a :: pre), post.
      split; [by rewrite Hl|]. split.
      * intros y [->|Hy]%elem_of_cons; [|by apply Hmax].
        apply Htot; [left | by right | done].
      * intros z [->|Hz]%elem_of_cons; [done | by apply Hpre].
Qed.

Section ReporterMore.
Variable ERROR_LOG_PATTERN : jsstring -> option (jsstring * jsstring * jsstring).
Variable localeCompare : jsstring -> jsstring -> Z.
Variable Buffer_toString : list N -> jsstring.
Variable network : list Event -> Request -> HttpOutcome.
Variable SystemInfo : Type.
Variable info_timestamp : SystemInfo -> jsstring.
Variable serialize : SystemInfo -> jsstring.
Variable getSystemInfo : M SystemInfo.

(** X11. When the collation orders the dates (it is total and
    transitive), the log reported as [latest_log] matches the pattern,
    no matching file has a later date, and every matching file listed
    before it in the directory has a strictly earlier date: among files
    of the same date the first one listed is taken. *)
Theorem latest_log_has_the_latest_date
    (entries : list (jsstring * Entry)) (name : jsstring) :
  (forall a b, 0 < localeCompare a b -> localeCompare b a <= 0) ->
  (forall a b c, localeCompare a b <= 0 -> localeCompare b c <= 0 ->
                 localeCompare a c <= 0) ->
  latest_log (checkErrorLog ERROR_LOG_PATTERN localeCompare Buffer_toString
                (Listing entries)) = Some name ->
  let matching :=
    filter (fun file => is_Some (ERROR_LOG_PATTERN file)) (fst <$> entries) in
  exists date before after,
    ERROR_LOG_PATTERN name = Some date
    /\ matching = before ++ name :: after
    /\ (forall other d, other ∈ matching -> ERROR_LOG_PATTERN other = Some d ->
          localeCompare (fullDate d) (fullDate date) <= 0)
    /\ (forall earlier d, earlier ∈ before ->
          ERROR_LOG_PATTERN earlier = Some d ->
          0 < localeCompare (fullDate date) (fullDate d)).
Proof.
  intros Htot Htrans Hlatest matching.
  set (cmp := compareLogs ERROR_LOG_PATTERN localeCompare).
  assert (Hmatch : forall x, x ∈ matching -> is_Some (ERROR_LOG_PATTERN x)).
  { intros x Hx. by apply list_elem_of_filter in Hx as [? _]. }
  assert (Hhead : head (sort cmp matching) = Some name).
  { unfold checkErrorLog in Hlatest. fold matching cmp in Hlatest.
    destruct (sort cmp matching) as [|first rest]; [done|].
    destruct (lookup_entry first entries) as [[bytes|e]|];
      simpl in Hlatest; simpl; congruence. }
  destruct (sort_head cmp matching name) as (before & after & Hl & Hmax & Hpre);
    [| |done|].
  { intros x y Hx Hy. unfold cmp, compareLogs.
    destruct (Hmatch x Hx) as [dx ->], (Hmatch y Hy) as [dy ->]. apply Htot. }
  { intros x y z Hx Hy Hz. unfold cmp, compareLogs.
    destruct (Hmatch x Hx) as [dx ->], (Hmatch y Hy) as [dy ->],
      (Hmatch z Hz) as [dz ->]. intros H1 H2. by apply (Htrans _ (fullDate dy)). }
  assert (Hname : name ∈ matching) by (rewrite Hl; set_solver).
  destruct (Hmatch name Hname) as [date Hdate].
  exists date, before, after. split; [done|]. split; [done|]. split.
  - intros other d Hother Hd. specialize (Hmax other Hother).
    unfold cmp, compareLogs in Hmax. by rewrite Hdate, Hd in Hmax.
  - intros earlier d He Hd. specialize (Hpre earlier He).
    unfold cmp, compareLogs in Hpre. by rewrite Hd, Hdate in Hpre.
Qed.

End ReporterMore.

(** ** What a run prints *)

Lemma header_match_heartbeatLine success now :
  0 <= ES.YearFromTime now <= 9999 ->
  header_match (heartbeatLine success now) = Some (timestamp now).
Proof.
  intros Hy. unfold heartbeatLine.
  change (timestamp now) with (formattedDate now).
  rewrite formattedDate_fields by done.
  set (ts := timestamp_text _ _ _ _ _ _).
  set (rest := lit "at " ++ ts ++ lit " UTC" ++ []).
  assert (Hrest : header_match rest = Some ts).
  { subst rest. change (lit "at " ++ ?x) with (97%N :: 116%N :: 32%N :: x).
    cbn [header_match].
    change (97%N :: 116%N :: 32%N :: ?x) with (lit "at " ++ x).
    subst ts. rewrite match_here_timestamp;
      [done | apply digits_pad4 | apply digits_pad2 ..]. }
  destruct success.
  - change (lit "Heartbeat update " ++ lit "successful" ++ lit " at " ++ ts
              ++ lit " UTC")
      with (lit "Heartbeat update successful " ++ rest).
    clearbody rest ts. clear Hy.
    let p := eval vm_compute in (lit "Heartbeat update successful ") in
    change (lit "Heartbeat update successful " ++ rest) with (p ++ rest).
    cbn [app]. repeat (rewrite header_match_skip by reflexivity). exact Hrest.
  - change (lit "Heartbeat update " ++ lit "failed" ++ lit " at " ++ ts
              ++ lit " UTC")
      with (lit "Heartbeat update failed " ++ rest).
    clearbody rest ts. clear Hy.
    let p := eval vm_compute in (lit "Heartbeat update failed ") in
    change (lit "Heartbeat update failed " ++ rest) with (p ++ rest).
    cbn [app]. repeat (rewrite header_match_skip by reflexivity). exact Hrest.
Qed.

Lemma header_match_retryWarning i : header_match (retryWarning i) = None.
Proof.
  unfold retryWarning.
  let p := eval vm_compute in (lit "GitHub update failed (attempt ") in
  change (lit "GitHub update failed (attempt ") with p.
  cbn [app]. repeat (rewrite header_match_skip by reflexivity).
  rewrite header_match_no_a by apply numeral_char_no_a, show_Z_chars.
  let p := eval vm_compute in
    (lit "/" ++ show_Z Heartbeat.attempts ++ lit "). Retrying in ") in
  change (lit "/" ++ show_Z Heartbeat.attempts ++ lit "). Retrying in "
            ++ ?x) with (p ++ x).
  cbn [app]. repeat (rewrite header_match_skip by reflexivity).
  rewrite header_match_no_a by apply numeral_char_no_a, show_Z_chars.
  reflexivity.
Qed.

Section Printed.
Variable network : list Event -> Request -> HttpOutcome.
Variable SystemInfo : Type.
Variable info_timestamp : SystemInfo -> jsstring.
Variable serialize : SystemInfo -> jsstring.
Variable getSystemInfo : M SystemInfo.
Variable inspect : jsstring -> jsstring.

Abbreviation main_ :=
  (main network SystemInfo info_timestamp serialize getSystemInfo inspect).
Abbreviation retryLoop_ := (retryLoop network SystemInfo serialize).

(** After a failed loop, every attempt has printed its warning. *)
Lemma retryLoop_warnings remaining i systemInfo tr :
  exists evs success,
    retryLoop_ remaining i systemInfo tr = (Ok success, tr ++ evs)
    /\ (success = false ->
        forall k, (k < remaining)%nat ->
          EvConsole Warn (retryWarning (i + Z.of_nat k)) ∈ evs).
Proof.
  revert i tr. induction remaining as [|rem IH]; intros i tr.
  - exists [], false. simpl. unfold mret, M_ret, ret. rewrite app_nil_r.
    split; [done|]. intros _ k Hk. lia.
  - destruct (updateGithubFile_run network SystemInfo serialize systemInfo tr)
      as (evs1 & evs2 & Hrun & _).
    cbv zeta in Hrun. cbn [retryLoop]. unfold mbind, M_bind, bind.
    rewrite Hrun.
    destruct (write_succeeded _).
    + eexists _, true. unfold mret, M_ret, ret. split; [reflexivity|done].
    + unfold console, sleep, emit.
      destruct (IH (i + 1)
                  (((tr ++ evs1 ++ EvRequest
                       {| method := PUT;
                          data := Some (updateData SystemInfo serialize
                                          (fetched_sha (network tr getRequest))
                                          systemInfo) |} :: evs2)
                    ++ [EvConsole Warn (retryWarning i)])
                   ++ [EvSleep (i * 2000)]))
        as (evs & success & Hloop & Hw).
      change (lit "GitHub update failed (attempt " ++ show_Z i ++ lit "/"
                ++ show_Z attempts ++ lit "). Retrying in "
                ++ show_Z (i * 2000) ++ lit " ms...")
        with (retryWarning i).
      rewrite Hloop. eexists _, success.
      split; [by rewrite <- !app_assoc|].
      intros Hs [|k] Hk.
      * rewrite Z.add_0_r, !elem_of_app, !elem_of_cons. tauto.
      * specialize (Hw Hs k ltac:(lia)).
        replace (i + Z.of_nat (S k)) with (i + 1 + Z.of_nat k) by lia.
        rewrite !elem_of_app. tauto.
Qed.

(** X12. A run whose record was collected at [now] ends by printing one
    line that the log trimmer recognises as a header line, with the
    timestamp of the record, which V8 reads back as [now] cut to the
    second; every warning of a failed attempt is printed before that
    line and holds no timestamp, and after a failed run the closing
    message, which holds none either, is printed after it. *)
Theorem run_is_logged_under_its_timestamp
    (now : Z) (systemInfo : SystemInfo) (tr tr1 : list Event) :
  getSystemInfo tr = (Ok systemInfo, tr1) ->
  info_timestamp systemInfo = timestamp now ->
  100 <= ES.YearFromTime now <= 9999 ->
  exists (success : bool) (evs : list Event),
    main_ tr
    = (Ok tt,
       tr1 ++ evs ++ EvConsole Log (heartbeatLine success now)
           :: (if success then [] else [EvConsole Error failureLine]))
    /\ header_match (heartbeatLine success now) = Some (timestamp now)
    /\ v8_parse (timestamp now ++ lit " UTC") = Some (1000 * (now / 1000))
    /\ header_match failureLine = None
    /\ (forall i, header_match (retryWarning i) = None)
    /\ (success = false ->
        forall i, 1 <= i <= 3 -> EvConsole Warn (retryWarning i) ∈ evs).
Proof.
  intros Hinfo Hts Hy.
  destruct (retryLoop_warnings (Z.to_nat attempts) 1 systemInfo tr1)
    as (evs & success & Hloop & Hw).
  exists success, evs. split; [|split; [|split; [|split; [|split]]]].
  - unfold main, try_catch, mbind, M_bind, bind. rewrite Hinfo, Hloop.
    unfold heartbeatLine. rewrite <- Hts.
    unfold console, emit, mret, M_ret, ret.
    destruct success; cbn [negb fst snd]; by rewrite <- !app_assoc.
  - apply header_match_heartbeatLine. lia.
  - by apply v8_parse_formattedDate.
  - vm_compute. reflexivity.
  - apply header_match_retryWarning.
  - intros Hs i Hi. specialize (Hw Hs (Z.to_nat (i - 1))).
    replace (1 + Z.of_nat (Z.to_nat (i - 1))) with i in Hw by lia.
    apply Hw. change (Z.to_nat attempts) with 3%nat. lia.
Qed.

End Printed.

(* ================================================================== *)
(** * The external address *)
(* ================================================================== *)

Lemma trimStart_head s c : head (trimStart s) = Some c -> is_space c = false.
Proof.
  induction s as [|a s IH]; [done|]. cbn [trimStart].
  destruct (is_space a) eqn:Ha; [done|]. by intros [= <-].
Qed.

Lemma trimStart_suffix s : exists p, s = p ++ trimStart s.
Proof.
  induction s as [|a s [p IH]]; [by exists []|]. cbn [trimStart].
  destruct (is_space a); [|by exists []].
  exists (a :: p). by rewrite <- app_comm_cons, <- IH.
Qed.

Lemma trimStart_last s c :
  last (trimStart s) = Some c -> last s = Some c.
Proof.
  destruct (trimStart_suffix s) as [p Hp]. intros H. rewrite Hp.
  destruct (trimStart s) as [|a r]; [done|].
  by rewrite last_app_cons.
Qed.

Lemma last_rev_head {A} (l : list A) : last (rev l) = head l.
Proof. destruct l as [|a l]; [done|]. simpl. apply last_snoc. Qed.

Lemma head_rev_last {A} (l : list A) : head (rev l) = last l.
Proof. by rewrite <- last_rev_head, rev_involutive. Qed.

Lemma trim_ends s :
  (forall c, head (trim s) = Some c -> is_space c = false)
  /\ (forall c, last (trim s) = Some c -> is_space c = false).
Proof.
  unfold trim. split; intros c H.
  - rewrite head_rev_last in H. apply trimStart_last in H.
    rewrite last_rev_head in H. by apply trimStart_head in H.
  - rewrite last_rev_head in H. by apply trimStart_head in H.
Qed.

Section ExternalIpFacts.
Variable lookup : list Candidate -> Candidate -> LookupOutcome.

Abbreviation tryCandidates_ := (tryCandidates lookup).

(** X14. The address reported is never empty and carries no white space
    at either end, whatever the endpoints do; the endpoints contacted
    are an initial part of the list, in its order, and no warning that
    was printed before is lost. *)
Theorem external_ip_is_never_blank
    (cs contacted : list Candidate) (warnings : list jsstring) :
  let r := tryCandidates_ cs contacted warnings in
  ip_result r <> []
  /\ (forall c, head (ip_result r) = Some c -> is_space c = false)
  /\ (forall c, last (ip_result r) = Some c -> is_space c = false)
  /\ (exists tried, tried `prefix_of` cs
                    /\ ip_contacted r = contacted ++ tried)
  /\ warnings `prefix_of` ip_warnings r
  /\ (length (ip_warnings r) <= length warnings + length cs)%nat.
Proof.
  revert contacted warnings.
  induction cs as [|c rest IH]; intros contacted warnings r; subst r.
  - cbn [tryCandidates ip_result ip_contacted ip_warnings].
    let p := eval vm_compute in (lit "Unable to determine") in
    change (lit "Unable to determine") with p.
    split; [discriminate|]. split; [intros c [= <-]; reflexivity|].
    split; [intros c [= <-]; reflexivity|].
    split; [exists []; split; [reflexivity|by rewrite app_nil_r]|].
    split; [reflexivity|]. cbn [length]. lia.
  - cbn [tryCandidates]. destruct (lookup contacted c) as [e|raw].
    + destruct (IH (contacted ++ [c])
                  (warnings ++ [lit "External IP lookup failed via "
                                  ++ hostname c ++ lit ": " ++ e]))
        as (H1 & H2 & H3 & (tried & Hp & Hc) & Hw & Hl).
      split; [done|]. split; [done|]. split; [done|]. split; [|split].
      * exists (c :: tried). split; [by apply prefix_cons|].
        by rewrite Hc, <- app_assoc.
      * etrans; [|exact Hw]. by apply prefix_app_r.
      * rewrite length_app in Hl. cbn [length] in Hl |- *. lia.
    + cbv zeta. case_bool_decide as Hblank.
      * destruct (IH (contacted ++ [c]) warnings)
          as (H1 & H2 & H3 & (tried & Hp & Hc) & Hw & Hl).
        split; [done|]. split; [done|]. split; [done|]. split; [|split].
        -- exists (c :: tried). split; [by apply prefix_cons|].
           by rewrite Hc, <- app_assoc.
        -- done.
        -- cbn [length]. lia.
      * cbn [ip_result ip_contacted ip_warnings].
        split; [exact Hblank|].
        split; [apply trim_ends|]. split; [apply trim_ends|].
        split; [|split; [reflexivity|lia]].
        exists [c]. split; [|reflexivity]. apply prefix_cons, prefix_nil.
Qed.

Lemma tryCandidates_pass pre rest contacted warnings :
  (forall i c, pre !! i = Some c ->
     match lookup (contacted ++ take i pre) c with
     | LookupRejected _ => True
     | LookupEnded raw => trim raw = []
     end) ->
  exists warnings',
    tryCandidates_ (pre ++ rest) contacted warnings
    = tryCandidates_ rest (contacted ++ pre) warnings'.
Proof.
  revert contacted warnings.
  induction pre as [|c pre IH]; intros contacted warnings H.
  - exists warnings. by rewrite app_nil_r.
  - rewrite <- app_comm_cons. cbn [tryCandidates].
    pose proof (H 0%nat c eq_refl) as H0. cbn [take] in H0.
    rewrite app_nil_r in H0.
    assert (H' : forall i c', pre !! i = Some c' ->
              match lookup ((contacted ++ [c]) ++ take i pre) c' with
              | LookupRejected _ => True
              | LookupEnded raw => trim raw = []
              end).
    { intros i c' Hi. specialize (H (S i) c' Hi). cbn [take] in H.
      by rewrite <- app_assoc. }
    destruct (lookup contacted c) as [e|raw].
    + destruct (IH (contacted ++ [c])
                  (warnings ++ [lit "External IP lookup failed via "
                                  ++ hostname c ++ lit ": " ++ e]) H')
        as [w ->].
      exists w. by rewrite <- app_assoc.
    + cbv zeta. rewrite bool_decide_eq_true_2 by exact H0.
      destruct (IH (contacted ++ [c]) warnings H') as [w ->].
      exists w. by rewrite <- app_assoc.
Qed.

(** X15. The first endpoint whose answer is not blank decides: when the
    endpoints before it failed or answered nothing but white space, the
    address is its answer without the white space around it, and the
    endpoints after it are not contacted. *)
Theorem first_answer_is_returned
    (pre : list Candidate) (c : Candidate) (rest contacted : list Candidate)
    (warnings : list jsstring) (raw : jsstring) :
  (forall i c', pre !! i = Some c' ->
     match lookup (contacted ++ take i pre) c' with
     | LookupRejected _ => True
     | LookupEnded raw' => trim raw' = []
     end) ->
  lookup (contacted ++ pre) c = LookupEnded raw ->
  trim raw <> [] ->
  let r := tryCandidates_ (pre ++ c :: rest) contacted warnings in
  ip_result r = trim raw /\ ip_contacted r = contacted ++ pre ++ [c].
Proof.
  intros Hpre Hc Hraw r. subst r.
  destruct (tryCandidates_pass pre (c :: rest) contacted warnings Hpre)
    as [w ->].
  cbn [tryCandidates]. rewrite Hc. cbv zeta.
  rewrite bool_decide_eq_false_2 by exact Hraw.
  cbn [ip_result ip_contacted]. split; [reflexivity|].
  rewrite <- app_assoc. reflexivity.
Qed.

(** X16. When every endpoint fails or answers nothing but white space,
    each one has been contacted, in order, and the address is the text
    [Unable to determine]. *)
Theorem fallback_when_no_endpoint_answers
    (cs contacted : list Candidate) (warnings : list jsstring) :
  (forall i c, cs !! i = Some c ->
     match lookup (contacted ++ take i cs) c with
     | LookupRejected _ => True
     | LookupEnded raw => trim raw = []
     end) ->
  let r := tryCandidates_ cs contacted warnings in
  ip_result r = lit "Unable to determine"
  /\ ip_contacted r = contacted ++ cs.
Proof.
  intros H r. subst r.
  destruct (tryCandidates_pass cs [] contacted warnings H) as [w Hw].
  rewrite app_nil_r in Hw. rewrite Hw. split; reflexivity.
Qed.

(** X17. A warning is printed for a lookup that failed, never for an
    answer: when every lookup is answered, no warning is printed, also
    when all the answers were blank and the fallback text is returned. *)
Theorem answered_lookups_print_no_warning
    (cs contacted : list Candidate) (warnings : list jsstring) :
  (forall hist c, exists raw, lookup hist c = LookupEnded raw) ->
  ip_warnings (tryCandidates_ cs contacted warnings) = warnings.
Proof.
  intros H. revert contacted.
  induction cs as [|c rest IH]; intros contacted; [reflexivity|].
  cbn [tryCandidates]. destruct (H contacted c) as [raw ->]. cbv zeta.
  case_bool_decide; [apply IH|reflexivity].
Qed.

End ExternalIpFacts.

(* ================================================================== *)
(** * The check of the heartbeat file *)
(* ================================================================== *)

Import Workflow.

Lemma DIFF_HOURS_gt_3 current_epoch last_epoch :
(3 <? DIFF_HOURS current_epoch last_epoch) = true
  <-> 14400 <= current_epoch - last_epoch.
Proof.
  unfold DIFF_HOURS. rewrite Z.ltb_lt.
  set (d := current_epoch - last_epoch).
  pose proof (Z.quot_rem d 3600 ltac:(lia)) as Hd.
  destruct (Z.le_gt_cases 0 d) as [Hpos|Hneg].
  - pose proof (Z.rem_bound_pos d 3600 Hpos ltac:(lia)). lia.
  - pose proof (Z.rem_nonpos d 3600 ltac:(lia) ltac:(lia)).
    pose proof (Z.rem_bound_abs d 3600 ltac:(lia)). lia.
Qed.

(** X18. The device is declared offline exactly when the snapshot is at
    least four full hours old (14400 s): the difference is cut to whole
    hours before it is compared with 3. A snapshot dated in the future
    counts as online. *)
Theorem offline_after_four_full_hours
    (current_epoch last_epoch : Z) (has_error : bool) (env : Env) :
  (status (check_file current_epoch last_epoch has_error env) = Some Offline
   <-> 14400 <= current_epoch - last_epoch)
  /\ (status (check_file current_epoch last_epoch has_error env) = Some Online
      <-> current_epoch - last_epoch < 14400).
Proof.
  pose proof (DIFF_HOURS_gt_3 current_epoch last_epoch) as H.
  unfold check_file.
  destruct (3 <? DIFF_HOURS current_epoch last_epoch).
  - cbn [status]. split; split; intros; try done; try tauto.
    assert (14400 <= current_epoch - last_epoch) by tauto. lia.
  - assert (~ 14400 <= current_epoch - last_epoch)
      by (intros H'; apply H in H'; discriminate).
    destruct has_error; cbn [status]; split; split; intros;
      try done; try lia.
Qed.

(** X19. After the check of a snapshot that was found, at most one mail
    is sent: the offline mail exactly when the snapshot is at least
    14400 s old, the error-log mail exactly when it is younger and
    reports an error log with content. An error log reported by a
    device that is offline is not mailed. *)
Theorem one_mail_per_check
    (current_epoch last_epoch : Z) (has_error : bool) :
  let env := check_file current_epoch last_epoch has_error file_found in
  (sends_offline_mail env = true <-> 14400 <= current_epoch - last_epoch)
  /\ (sends_error_log_mail env = true
      <-> current_epoch - last_epoch < 14400 /\ has_error = true)
  /\ (sends_offline_mail env && sends_error_log_mail env = false).
Proof.
  pose proof (DIFF_HOURS_gt_3 current_epoch last_epoch) as H.
  intros env. subst env. unfold check_file.
  destruct (3 <? DIFF_HOURS current_epoch last_epoch).
  - assert (14400 <= current_epoch - last_epoch) by tauto.
    unfold sends_offline_mail, sends_error_log_mail, file_found.
    cbn [alert_type source has_error_logs orb andb].
    split; [tauto|]. split; [|reflexivity].
    split; [discriminate|]. intros [? _]. lia.
  - assert (~ 14400 <= current_epoch - last_epoch)
      by (intros H'; apply H in H'; discriminate).
    unfold sends_offline_mail, sends_error_log_mail, file_found.
    destruct has_error; cbn [alert_type source has_error_logs orb andb].
    + split; [split; [discriminate|tauto]|]. split; [|reflexivity].
      split; [intros _; split; [lia|reflexivity]|reflexivity].
    + split; [split; [discriminate|tauto]|]. split; [|reflexivity].
      split; [discriminate|]. intros [_ ?]. discriminate.
Qed.

Lemma DIFF_HOURS_gt_13 current_epoch last_epoch :
  (13 <? DIFF_HOURS current_epoch last_epoch) = true
  <-> 50400 <= current_epoch - last_epoch.
Proof.
  unfold DIFF_HOURS. rewrite Z.ltb_lt.
  set (d := current_epoch - last_epoch).
  pose proof (Z.quot_rem d 3600 ltac:(lia)) as Hd.
  destruct (Z.le_gt_cases 0 d) as [Hpos|Hneg].
  - pose proof (Z.rem_bound_pos d 3600 Hpos ltac:(lia)). lia.
  - pose proof (Z.rem_nonpos d 3600 ltac:(lia) ltac:(lia)).
    pose proof (Z.rem_bound_abs d 3600 ltac:(lia)). lia.
Qed.

(** X20. When the heartbeat is read from the comments of the issue, the
    device is declared offline, and the offline mail is sent, exactly
    when the latest comment is at least fourteen full hours old
    (50400 s) or no comment time was read; the error-log mail is never
    sent on this path. *)
Theorem issue_check_allows_fourteen_hours
    (current_epoch : Z) (last_comment_epoch : option Z) :
  let env := check_issue current_epoch last_comment_epoch issue_found in
  (sends_offline_mail env = true
   <-> match last_comment_epoch with
       | None => True
       | Some last_epoch => 50400 <= current_epoch - last_epoch
       end)
  /\ (status env = Some Online
      <-> exists last_epoch,
            last_comment_epoch = Some last_epoch
            /\ current_epoch - last_epoch < 50400)
  /\ sends_error_log_mail env = false.
Proof.
  intros env. subst env. unfold check_issue.
  destruct last_comment_epoch as [last_epoch|].
  - pose proof (DIFF_HOURS_gt_13 current_epoch last_epoch) as H.
    destruct (13 <? DIFF_HOURS current_epoch last_epoch).
    + assert (50400 <= current_epoch - last_epoch) by tauto.
      split; [split; [done|reflexivity]|]. split; [|reflexivity].
      split; [discriminate|]. intros (l & [= <-] & ?). lia.
    + assert (~ 50400 <= current_epoch - last_epoch)
        by (intros H'; apply H in H'; discriminate).
      split; [split; [discriminate|tauto]|]. split; [|reflexivity].
      split; [intros _; exists last_epoch; split; [reflexivity|lia]
             |reflexivity].
  - split; [split; [done|reflexivity]|]. split; [|reflexivity].
    split; [discriminate|]. intros (l & Hl & _). discriminate Hl.
Qed.

(* ================================================================== *)
(** * The further properties on examples *)
(* ================================================================== *)

Lemma codeUnitCompare_swap a b :
  0 < codeUnitCompare a b -> codeUnitCompare b a <= 0.
Proof.
  revert b. induction a as [|x a IH]; intros [|y b]; cbn [codeUnitCompare];
    try lia.
  destruct (N.ltb_spec x y), (N.ltb_spec y x); try lia. apply IH.
Qed.

Lemma codeUnitCompare_trans a b c :
  codeUnitCompare a b <= 0 -> codeUnitCompare b c <= 0 ->
  codeUnitCompare a c <= 0.
Proof.
  revert b c. induction a as [|x a IH]; intros [|y b] [|z c];
    cbn [codeUnitCompare]; try lia.
  destruct (N.ltb_spec x y), (N.ltb_spec y x), (N.ltb_spec y z),
    (N.ltb_spec z y), (N.ltb_spec x z), (N.ltb_spec z x); try lia.
  apply IH.
Qed.

Lemma later_cutoff_keeps_a_subsequence_witness :
  let lines :=
    [lit "Heartbeat update successful at 2024-05-10 10:00:00 UTC";
     lit "  detail line";
     lit "Heartbeat update successful at 2024-05-31 10:00:00 UTC"] in
  sublist (output (scan v8_parse (Some 1716595200000) lines))
          (output (scan v8_parse (Some 1714608000000) lines)).
Proof.
  intros lines.
  apply (later_cutoff_keeps_a_subsequence v8_parse 1714608000000
           (Some 1716595200000) lines).
  right. exists 1716595200000. split; [reflexivity | lia].
Defined.

Lemma entry_is_kept_or_dropped_whole_witness :
  let header := lit "Heartbeat update failed at 2024-05-31 10:00:00 UTC" in
  let conts := [lit "Failed to update GitHub file."] in
  let cutoff := Some 1714608000000 in
  output (scan v8_parse cutoff ([] ++ header :: conts))
  = output (scan v8_parse cutoff [])
      ++ (if ES.num_ge (v8_parse (lit "2024-05-31 10:00:00" ++ lit " UTC"))
               cutoff
          then header :: conts else []).
Proof.
  intros header conts cutoff.
  apply (entry_is_kept_or_dropped_whole v8_parse cutoff [] header
           (lit "2024-05-31 10:00:00") conts).
  - vm_compute. reflexivity.
  - constructor; [vm_compute; reflexivity | constructor].
Defined.

Lemma maintenance_lines_are_an_entry_witness :
  header_match (trailer1 june_first) = Some (formattedDate june_first)
  /\ header_match (trailer2 30) = None.
Proof.
  destruct (maintenance_lines_are_an_entry v8_parse june_first 30)
    as (H1 & H2 & _).
  - vm_compute. split; discriminate.
  - split; [exact H1 | exact H2].
Defined.

Lemma invalid_cutoff_drops_every_line_witness :
  trimmedText utcTZA v8_parse june_first 200000000
    (lit "Heartbeat update successful at 2024-05-31 10:00:00 UTC")
  = trailer1 june_first ++ [LF] ++ trailer2 200000000.
Proof.
  apply (invalid_cutoff_drops_every_line utcTZA v8_parse june_first 200000000).
  vm_compute. reflexivity.
Defined.

Lemma unexpired_log_is_kept_verbatim_witness :
  let content :=
    lit "Heartbeat update successful at 2024-05-31 10:00:00 UTC" ++ [LF]
      ++ lit "  detail line" in
  trimmedText utcTZA v8_parse june_first 30 content
  = content ++ [LF] ++ trailer1 june_first ++ [LF] ++ trailer2 30.
Proof.
  intros content.
  apply (unexpired_log_is_kept_verbatim utcTZA v8_parse june_first 30 content
           (lit "Heartbeat update successful at 2024-05-31 10:00:00 UTC")
           [lit "  detail line"]).
  - vm_compute. reflexivity.
  - vm_compute. reflexivity.
  - constructor; [vm_compute; discriminate | constructor].
Defined.

Lemma latest_log_has_the_latest_date_witness :
  let entries :=
    [(lit "error_2024-05-30.log", Regular (lit "old failure"));
     (lit "notes.txt", Regular (lit "unrelated"));
     (lit "error_2024-06-01.log", Regular (lit "disk full"))] in
  let matching :=
    filter (fun file => is_Some (readme_pattern file)) (fst <$> entries) in
  exists date before after,
    readme_pattern (lit "error_2024-06-01.log") = Some date
    /\ matching = before ++ lit "error_2024-06-01.log" :: after
    /\ (forall other d, other ∈ matching -> readme_pattern other = Some d ->
          codeUnitCompare (fullDate d) (fullDate date) <= 0)
    /\ (forall earlier d, earlier ∈ before ->
          readme_pattern earlier = Some d ->
          0 < codeUnitCompare (fullDate date) (fullDate d)).
Proof.
  intros entries.
  apply (latest_log_has_the_latest_date readme_pattern codeUnitCompare
           ascii_toString entries (lit "error_2024-06-01.log")
           codeUnitCompare_swap codeUnitCompare_trans).
  vm_compute. reflexivity.
Defined.

Lemma run_is_logged_under_its_timestamp_witness :
  exists (success : bool) (evs : list Event),
    main dead_network unit (fun _ => timestamp june_first)
      (fun _ => lit "e30=") (ret tt) (fun e => e) []
    = (Ok tt,
       [] ++ evs ++ EvConsole Log (heartbeatLine success june_first)
          :: (if success then [] else [EvConsole Error failureLine]))
    /\ header_match (heartbeatLine success june_first)
       = Some (timestamp june_first)
    /\ v8_parse (timestamp june_first ++ lit " UTC")
       = Some (1000 * (june_first / 1000)).
Proof.
  destruct (run_is_logged_under_its_timestamp dead_network unit
              (fun _ => timestamp june_first) (fun _ => lit "e30=") (ret tt)
              (fun e => e) june_first tt [] [] eq_refl eq_refl)
    as (success & evs & Hmain & Hheader & Hparse & _).
  - vm_compute. split; discriminate.
  - exists success, evs. split; [exact Hmain|]. split; [exact Hheader|].
    exact Hparse.
Defined.

Lemma first_answer_is_returned_witness :
  let lookup := fun (hist : list Candidate) (c : Candidate) =>
    match hist with
    | [] => LookupRejected (lit "Timeout")
    | _ :: _ => LookupEnded (lit " 203.0.113.7" ++ [LF])
    end in
  ip_result (getExternalIp lookup) = trim (lit " 203.0.113.7" ++ [LF])
  /\ ip_contacted (getExternalIp lookup) = candidates.
Proof.
  intros lookup.
  apply (first_answer_is_returned lookup
           [{| hostname := lit "api.ipify.org"; path := lit "/";
               port := 443 |}]
           {| hostname := lit "ifconfig.me"; path := lit "/ip";
              port := 443 |} [] [] [] (lit " 203.0.113.7" ++ [LF])).
  - intros [|i] c' H; [exact I|]. cbn in H. discriminate H.
  - reflexivity.
  - vm_compute. discriminate.
Defined.

Lemma fallback_when_no_endpoint_answers_witness :
  let lookup := fun (hist : list Candidate) (c : Candidate) =>
    match hist with
    | [] => LookupRejected (lit "Timeout")
    | _ :: _ => LookupEnded (lit "  " ++ [LF])
    end in
  ip_result (getExternalIp lookup) = lit "Unable to determine"
  /\ ip_contacted (getExternalIp lookup) = candidates.
Proof.
  intros lookup.
  apply (fallback_when_no_endpoint_answers lookup candidates [] []).
  intros [|[|i]] c H.
  - exact I.
  - vm_compute. reflexivity.
  - cbn in H. discriminate H.
Defined.

Lemma answered_lookups_print_no_warning_witness :
  ip_warnings
    (getExternalIp (fun _ _ => LookupEnded (lit "  " ++ [LF]))) = [].
Proof.
  apply (answered_lookups_print_no_warning
           (fun _ _ => LookupEnded (lit "  " ++ [LF])) candidates [] []).
  intros hist c. eexists. reflexivity.
Defined.
